(** * Crawl-and-index subsystem of the Eptura assistant backend (server.js)

    A shallow embedding of [scrapeSectionRecursively],
    [scrapeEpturaKnowledge] and [searchKnowledgeBase], with the JavaScript
    primitives they rely on ([String.prototype] methods, [Map], the
    selections of a parsed page) written out as executable functions.

    Conventions.
    - A JavaScript string is a [string]; its characters stand for code
      units below 256.
    - The [knowledgeBase] Map is an association list in insertion order,
      because [Map.prototype.entries] iterates in that order and the
      search depends on it.
    - The network is an oracle: the n-th request of a pass for a URL
      either fails (the [axios.get] or [cheerio.load] call throws) or
      yields the parsed page.  The oracle may answer differently at
      different request numbers. *)

From Stdlib Require Import String Ascii List ZArith Lia Bool Arith DecimalString.
Import ListNotations.
Open Scope string_scope.

(** ** JavaScript string primitives *)

Module Js.

(** WhiteSpace and LineTerminator code units below 256: the class [\s]
    of a regular expression and the characters removed by [trim]. *)
Definition isWhiteSpace (c : ascii) : bool :=
  let n := nat_of_ascii c in
  ((n =? 9) || (n =? 10) || (n =? 11) || (n =? 12) || (n =? 13)
   || (n =? 32) || (n =? 160))%nat.

Definition lowerChar (c : ascii) : ascii :=
  let n := nat_of_ascii c in
  if (((65 <=? n) && (n <=? 90))
      || ((192 <=? n) && (n <=? 222) && negb (n =? 215)))%nat
  then ascii_of_nat (n + 32)
  else c.

(** [s.toLowerCase()] *)
Fixpoint toLowerCase (s : string) : string :=
  match s with
  | EmptyString => EmptyString
  | String c s' => String (lowerChar c) (toLowerCase s')
  end.

(** [s.startsWith(p)] *)
Definition startsWith (s p : string) : bool := String.prefix p s.

(** [s.includes(sub)] *)
Fixpoint includes (s sub : string) : bool :=
  String.prefix sub s
  || match s with
     | EmptyString => false
     | String _ s' => includes s' sub
     end.

(** [s.replace(/\s+/g, ' ')]: [inRun] records that the previous
    character belonged to a whitespace run already replaced. *)
Fixpoint collapseFrom (inRun : bool) (s : string) : string :=
  match s with
  | EmptyString => EmptyString
  | String c s' =>
      if isWhiteSpace c
      then if inRun then collapseFrom true s'
           else String " " (collapseFrom true s')
      else String c (collapseFrom false s')
  end.

Definition collapseWhitespace (s : string) : string := collapseFrom false s.

Fixpoint trimStart (s : string) : string :=
  match s with
  | EmptyString => EmptyString
  | String c s' => if isWhiteSpace c then trimStart s' else s
  end.

Fixpoint trimEnd (s : string) : string :=
  match s with
  | EmptyString => EmptyString
  | String c s' =>
      match trimEnd s' with
      | EmptyString => if isWhiteSpace c then EmptyString else String c EmptyString
      | r => String c r
      end
  end.

(** [s.trim()] *)
Definition trim (s : string) : string := trimEnd (trimStart s).

(** [s.substring(0, n)] *)
Fixpoint substring0 (n : nat) (s : string) : string :=
  match n, s with
  | S n', String c s' => String c (substring0 n' s')
  | _, _ => EmptyString
  end.

(** [$(sel).text()]: the combined text of every element of the
    selection, in document order. *)
Definition text (selection : list string) : string :=
  String.concat EmptyString selection.

End Js.

(** ** [Map] with string keys, in insertion order *)

Module JsMap.

Definition t (V : Type) : Type := list (string * V).

Definition empty {V} : t V := [].

Fixpoint has {V} (m : t V) (k : string) : bool :=
  match m with
  | [] => false
  | (k', _) :: m' => (k' =? k) || has m' k
  end.

Fixpoint get {V} (m : t V) (k : string) : option V :=
  match m with
  | [] => None
  | (k', v) :: m' => if k' =? k then Some v else get m' k
  end.

(** [m.set(k, v)]: an existing key keeps its place in the iteration
    order, a new key goes last. *)
Fixpoint set {V} (m : t V) (k : string) (v : V) : t V :=
  match m with
  | [] => [(k, v)]
  | (k', v') :: m' =>
      if k' =? k then (k, v) :: m' else (k', v') :: set m' k v
  end.

Definition keys {V} (m : t V) : list string := map fst m.

Definition size {V} (m : t V) : nat := List.length m.

(** Keys of a Map are pairwise distinct. *)
Definition wf {V} (m : t V) : Prop := NoDup (keys m).

End JsMap.

(** ** Data model *)

(** A value of the [knowledgeBase] Map. *)
Module Doc.
Record t : Type := mk { title : string; content : string; url : string }.
End Doc.

(** A seed of [KNOWLEDGE_SECTIONS] or a link collected from a page. *)
Module Sec.
Record t : Type := mk { name : string; url : string }.
End Sec.

(** An element of the array returned by [searchKnowledgeBase]. *)
Module Hit.
Record t : Type := mk { title : string; excerpt : string; url : string }.
End Hit.

(** An [<a>] element: its [href] attribute, when present, and its text. *)
Record Anchor : Type := { href : option string; anchorText : string }.

(** What the selections of the crawler see of a loaded page:
    the text of each [<title>] element in document order, the text of
    [<body>], and the [<a>] elements in document order. *)
Record Page : Type :=
  { titleElements : list string; bodyText : string; anchors : list Anchor }.

(** The answer to the n-th request of a pass; [None] is a thrown error. *)
Definition Web : Type := nat -> string -> option Page.

(** One [axios.get] call, as observed. *)
Record FetchEvent : Type :=
  { ev_url : string; ev_depth : nat; ev_ok : bool }.

Record CrawlState : Type :=
  { knowledgeBase : JsMap.t Doc.t; fetchLog : list FetchEvent }.

Definition KNOWLEDGE_SECTIONS : list Sec.t :=
  [ Sec.mk "Condeco" "https://knowledge.eptura.com/condeco";
    Sec.mk "Proxyclick" "https://knowledge.eptura.com/proxyclick";
    Sec.mk "Serraview" "https://knowledge.eptura.com/serraview";
    Sec.mk "iOFFICE" "https://knowledge.eptura.com/ioffice";
    Sec.mk "ManagerPlus" "https://knowledge.eptura.com/managerplus";
    Sec.mk "SpaceIQ" "https://knowledge.eptura.com/spaceiq";
    Sec.mk "Archibus" "https://knowledge.eptura.com/archibus" ].

Definition crawlDomain : string := "https://knowledge.eptura.com".

(** ** The crawler *)

(** [$('title').text() || section.name] *)
Definition pageTitle (page : Page) (fallback : string) : string :=
  let t := Js.text (titleElements page) in
  if t =? EmptyString then fallback else t.

(** [$('body').text().replace(/\s+/g, ' ').trim().substring(0, 1000)] *)
Definition pageContent (page : Page) : string :=
  Js.substring0 1000 (Js.trim (Js.collapseWhitespace (bodyText page))).

(** The [$('a').each] loop: anchors whose [href] is truthy, starts with
    the crawl domain and is not a key of the Map at that moment. *)
Fixpoint collectLinks (kb : JsMap.t Doc.t) (elements : list Anchor)
  : list Sec.t :=
  match elements with
  | [] => []
  | a :: rest =>
      match href a with
      | Some h =>
          if negb (h =? EmptyString) && Js.startsWith h crawlDomain
             && negb (JsMap.has kb h)
          then Sec.mk (anchorText a) h :: collectLinks kb rest
          else collectLinks kb rest
      | None => collectLinks kb rest
      end
  end.

Definition logFetch (st : CrawlState) (u : string) (d : nat) (ok : bool)
  : list FetchEvent :=
  (fetchLog st ++ [ {| ev_url := u; ev_depth := d; ev_ok := ok |} ])%list.

(** The body of [scrapeSectionRecursively]; [fuel] bounds the nesting of
    calls and is chosen by [scrapeSectionRecursively] below. *)
Fixpoint scrapeRec (fuel : nat) (web : Web) (section : Sec.t)
  (depth maxDepth : nat) (st : CrawlState) : CrawlState :=
  if (maxDepth <? depth)%nat then st
  else
    match fuel with
    | O => st
    | S fuel' =>
        match web (List.length (fetchLog st)) (Sec.url section) with
        | None =>
            {| knowledgeBase := knowledgeBase st;
               fetchLog := logFetch st (Sec.url section) depth false |}
        | Some page =>
            let kb :=
              JsMap.set (knowledgeBase st) (Sec.url section)
                (Doc.mk (pageTitle page (Sec.name section))
                        (pageContent page) (Sec.url section)) in
            let links := collectLinks kb (anchors page) in
            fold_left
              (fun st' link => scrapeRec fuel' web link (S depth) maxDepth st')
              links
              {| knowledgeBase := kb;
                 fetchLog := logFetch st (Sec.url section) depth true |}
        end
    end.

Definition scrapeSectionRecursively (web : Web) (section : Sec.t)
  (depth maxDepth : nat) (st : CrawlState) : CrawlState :=
  scrapeRec (S maxDepth - depth) web section depth maxDepth st.

(** The loop of [scrapeEpturaKnowledge] over a list of seeds. *)
Definition scrapeSections (web : Web) (sections : list Sec.t)
  (st : CrawlState) : CrawlState :=
  fold_left (fun st' section => scrapeSectionRecursively web section 0 1 st')
    sections st.

(** One crawl pass over the Map [kb]. *)
Definition scrapeEpturaKnowledge (web : Web) (kb : JsMap.t Doc.t)
  : CrawlState :=
  scrapeSections web KNOWLEDGE_SECTIONS
    {| knowledgeBase := kb; fetchLog := [] |}.

(** Successive passes, each with its own network answers. *)
Definition crawlPasses (webs : list Web) (kb : JsMap.t Doc.t)
  : JsMap.t Doc.t :=
  fold_left (fun kb' web => knowledgeBase (scrapeEpturaKnowledge web kb'))
    webs kb.

Definition fetchedUrls (st : CrawlState) : list string :=
  map ev_url (fetchLog st).

(** ** The search *)

(** The test of the [if] in the loop of [searchKnowledgeBase]. *)
Definition matches (queryLower : string) (doc : Doc.t) : bool :=
  Js.includes (Js.toLowerCase (Doc.title doc)) queryLower
  || Js.includes (Js.toLowerCase (Doc.content doc)) queryLower.

Definition toHit (doc : Doc.t) : Hit.t :=
  Hit.mk (Doc.title doc)
         (String.append (Js.substring0 200 (Doc.content doc)) "...")
         (Doc.url doc).

(** The [for ... of knowledgeBase.entries()] loop: push on a match, then
    test the length against [limit], whether or not there was a match. *)
Fixpoint searchLoop (entries : JsMap.t Doc.t) (queryLower : string)
  (limit : Z) (results : list Hit.t) : list Hit.t :=
  match entries with
  | [] => results
  | (_, doc) :: rest =>
      let results' :=
        if matches queryLower doc then (results ++ [toHit doc])%list
        else results in
      if (limit <=? Z.of_nat (List.length results'))%Z then results'
      else searchLoop rest queryLower limit results'
  end.

Definition searchKnowledgeBase (kb : JsMap.t Doc.t) (query : string)
  (limit : Z) : list Hit.t :=
  searchLoop kb (Js.toLowerCase query) limit [].

(** The search as the specification words it: the first [limit]
    matching documents in insertion order. *)
Definition searchSpec (kb : JsMap.t Doc.t) (query : string) (limit : Z)
  : list Hit.t :=
  map toHit
    (firstn (Z.to_nat limit)
       (filter (matches (Js.toLowerCase query)) (map snd kb))).

(** ** Vocabulary of the properties *)

(** Two adjacent whitespace characters somewhere in [s]. *)
Fixpoint hasWhitespaceRun (s : string) : bool :=
  match s with
  | String c1 ((String c2 _) as s') =>
      (Js.isWhiteSpace c1 && Js.isWhiteSpace c2) || hasWhitespaceRun s'
  | _ => false
  end.

Definition startsWithWhitespace (s : string) : bool :=
  match s with
  | String c _ => Js.isWhiteSpace c
  | EmptyString => false
  end.

Fixpoint endsWithWhitespace (s : string) : bool :=
  match s with
  | EmptyString => false
  | String c EmptyString => Js.isWhiteSpace c
  | String _ s' => endsWithWhitespace s'
  end.

(** The title as the specification words it: the text of the first
    [<title>] element, or the fallback when that text is empty. *)
Definition titleSpec (page : Page) (fallback : string) : string :=
  match titleElements page with
  | [] => fallback
  | t :: _ => if t =? EmptyString then fallback else t
  end.

(** The document written for [section] from [page]. *)
Definition documentOf (section : Sec.t) (page : Page) : Doc.t :=
  Doc.mk (pageTitle page (Sec.name section)) (pageContent page)
         (Sec.url section).

(** The state right after [knowledgeBase.set] in a successful call. *)
Definition afterStore (section : Sec.t) (d : nat) (page : Page)
  (st : CrawlState) : CrawlState :=
  {| knowledgeBase :=
       JsMap.set (knowledgeBase st) (Sec.url section) (documentOf section page);
     fetchLog := logFetch st (Sec.url section) d true |}.

Definition afterFailure (section : Sec.t) (d : nat) (st : CrawlState)
  : CrawlState :=
  {| knowledgeBase := knowledgeBase st;
     fetchLog := logFetch st (Sec.url section) d false |}.

(** A request made for a seed, at depth 0. *)
Definition isSeedFetch (e : FetchEvent) : bool := (ev_depth e =? 0)%nat.

Definition seedUrls : list string := map Sec.url KNOWLEDGE_SECTIONS.

(** A request that is not the first of its call tree: it lies strictly
    below depth [d], within [maxDepth], and its URL is no key of [kb]. *)
Definition deeperFetch (maxDepth d : nat) (kb : JsMap.t Doc.t)
  (e : FetchEvent) : Prop :=
  d < ev_depth e /\ ev_depth e <= maxDepth /\ JsMap.has kb (ev_url e) = false.

(** The [for (const link of links)] loop as a chain of calls, each
    related to its outcome by [P]. *)
Inductive LinkRuns (P : Sec.t -> nat -> CrawlState -> CrawlState -> Prop)
  (depth : nat) : list Sec.t -> CrawlState -> CrawlState -> Prop :=
| LinkRuns_nil : forall st, LinkRuns P depth [] st st
| LinkRuns_cons : forall link links st st1 st2,
    P link depth st st1 ->
    LinkRuns P depth links st1 st2 ->
    LinkRuns P depth (link :: links) st st2.

(** What one call of [scrapeSectionRecursively] does to the state:
    keys are kept, entries under other keys already present are
    untouched, and the log grows by the call's own request followed by
    deeper requests for URLs that were not keys when the call started. *)
Definition CrawlEffect (maxDepth : nat) (section : Sec.t) (d : nat)
  (st st' : CrawlState) : Prop :=
  (forall u, JsMap.has (knowledgeBase st) u = true ->
             JsMap.has (knowledgeBase st') u = true)
  /\ (forall u, JsMap.has (knowledgeBase st) u = true ->
                u <> Sec.url section ->
                JsMap.get (knowledgeBase st') u = JsMap.get (knowledgeBase st) u)
  /\ ((maxDepth < d /\ st' = st)
      \/ (d <= maxDepth /\
          exists ok rest,
            fetchLog st' =
            (fetchLog st
               ++ {| ev_url := Sec.url section; ev_depth := d; ev_ok := ok |}
               :: rest)%list
            /\ Forall (deeperFetch maxDepth d (knowledgeBase st)) rest
            /\ (ok = false -> knowledgeBase st' = knowledgeBase st /\ rest = []))).

(** Where a stored document comes from: it was there before, or it was
    written from a fetched page under the URL of its key. *)
Definition Provenance (st st' : CrawlState) : Prop :=
  (JsMap.wf (knowledgeBase st) -> JsMap.wf (knowledgeBase st'))
  /\ forall u doc,
       In (u, doc) (knowledgeBase st') ->
       In (u, doc) (knowledgeBase st)
       \/ exists page fallback,
            doc = Doc.mk (pageTitle page fallback) (pageContent page) u.

(** ** Concrete inputs used by the examples below *)

Definition condecoUrl : string := "https://knowledge.eptura.com/condeco".
Definition proxyclickUrl : string := "https://knowledge.eptura.com/proxyclick".
Definition guideUrl : string := "https://knowledge.eptura.com/condeco/guide".

Definition condecoDoc : Doc.t :=
  Doc.mk "Condeco Home" "Book a desk with Condeco" condecoUrl.
Definition guideDoc : Doc.t :=
  Doc.mk "Visitor Guide" "Register a visitor" guideUrl.

(** A Map holding two documents, [condecoDoc] inserted first. *)
Definition sampleStore : JsMap.t Doc.t :=
  JsMap.set (JsMap.set JsMap.empty condecoUrl condecoDoc) guideUrl guideDoc.

Definition link (u : string) : Anchor :=
  {| href := Some u; anchorText := "Guide" |}.

Definition plainPage (t body : string) (links : list Anchor) : Page :=
  {| titleElements := [t]; bodyText := body; anchors := links |}.

(** The seed page links twice to the same guide page. *)
Definition dupLinkWeb : Web := fun _ u =>
  if u =? condecoUrl
  then Some (plainPage "Condeco Home" "Book a desk with Condeco"
               [link guideUrl; link guideUrl])
  else if u =? guideUrl
  then Some (plainPage "Visitor Guide" "Register a visitor" [])
  else None.

(** Two seed pages link to a guide page that cannot be fetched. *)
Definition brokenLinkWeb : Web := fun _ u =>
  if (u =? condecoUrl) || (u =? proxyclickUrl)
  then Some (plainPage "Home" "Welcome" [link guideUrl])
  else None.

(** The first seed cannot be fetched; the second links back to it. *)
Definition condecoDownWeb : Web := fun _ u =>
  if u =? proxyclickUrl
  then Some (plainPage "Proxyclick" "Welcome your visitors"
               [link condecoUrl; link guideUrl])
  else None.

(** Nothing can be fetched. *)
Definition offlineWeb : Web := fun _ _ => None.

Fixpoint repeatChar (n : nat) (c : ascii) : string :=
  match n with
  | O => EmptyString
  | S n' => String c (repeatChar n' c)
  end.

(** 999 letters, a space and one more letter. *)
Definition longBody : string := String.append (repeatChar 999 "a") " b".

Definition longBodyWeb : Web := fun _ u =>
  if u =? condecoUrl then Some (plainPage "Condeco Home" longBody [])
  else None.

(** A page with a second [<title>] element, as an inline image has. *)
Definition twoTitlePage : Page :=
  {| titleElements := ["Condeco Home"; "Eptura logo"];
     bodyText := "Book a desk with Condeco"; anchors := [] |}.

Definition twoTitleWeb : Web := fun _ u =>
  if u =? condecoUrl then Some twoTitlePage else None.

(** The seed page answers the first request only. *)
Definition flakyWeb : Web := fun n u =>
  if (n =? 0)%nat && (u =? condecoUrl)
  then Some (plainPage "Condeco Home" "Book a desk with Condeco" [])
  else None.

(** ** The request handlers *)

(** A field of a parsed JSON body, as far as the handlers look at it:
    the falsy values that are not strings, the truthy values that are
    not strings ([true], a number other than zero, an array, an object),
    and the strings. *)
Inductive JsValue : Type :=
| JUndefined
| JNull
| JFalse
| JZero
| JTruthy
| JString (s : string).

(** [!!v] *)
Definition truthy (v : JsValue) : bool :=
  match v with
  | JString s => negb (s =? EmptyString)
  | JTruthy => true
  | _ => false
  end.

(** The text of a falsy value or a string inside a template literal. *)
Definition templateText (v : JsValue) : string :=
  match v with
  | JUndefined => "undefined"
  | JNull => "null"
  | JFalse => "false"
  | JZero => "0"
  | JTruthy => EmptyString
  | JString s => s
  end.

(** What a handler does with a request: it sends a status and a body,
    or an error escapes it. *)
Inductive Outcome (Body : Type) : Type :=
| Responded (status : nat) (body : Body)
| Threw.
Arguments Responded {Body} status body.
Arguments Threw {Body}.

Definition newline : string := String (ascii_of_nat 10) EmptyString.

(** [String(n)] for a count. *)
Definition decimal (n : nat) : string :=
  NilEmpty.string_of_uint (Nat.to_uint n).

(** A message of the completion request. *)
Module Msg.
Record t : Type := mk { role : string; content : string }.
End Msg.

(** An element of [sources] in the chat reply. *)
Module Source.
Record t : Type := mk { title : string; url : string }.
End Source.

(** Bodies of [/api/search]; the [error] texts are the source's. *)
Inductive SearchBody : Type :=
| SearchError (error : string)
| SearchResults (results : list Hit.t).

(** Bodies of [/api/chat]; the [details] field, which carries the text of
    the caught error, is left out. *)
Inductive ChatBody : Type :=
| ChatError (error : string)
| ChatReply (response : string) (sources : list Source.t).

Record AskBody : Type :=
  { askText : string; image : option string; imageAlt : string }.

(** [app.post('/api/search')]: a truthy query that is not a string makes
    [query.toLowerCase()] throw, outside any [try]. *)
Definition apiSearch (kb : JsMap.t Doc.t) (query : JsValue)
  : Outcome SearchBody :=
  if negb (truthy query) then Responded 400 (SearchError "Query is required")
  else
    match query with
    | JString q => Responded 200 (SearchResults (searchKnowledgeBase kb q 5))
    | _ => Threw
    end.

(** One step of the [relevantDocs.forEach] that builds the context. *)
Definition contextEntry (i : nat) (doc : Hit.t) : string :=
  String.concat EmptyString
    [ decimal (i + 1); ". "; Hit.title doc; newline;
      Hit.excerpt doc; newline; "Source: "; Hit.url doc; newline; newline ].

Fixpoint appendEntries (context : string) (i : nat) (docs : list Hit.t)
  : string :=
  match docs with
  | [] => context
  | doc :: rest =>
      appendEntries (String.append context (contextEntry i doc)) (S i) rest
  end.

Definition chatContext (relevantDocs : list Hit.t) : string :=
  if (0 <? List.length relevantDocs)%nat
  then appendEntries
         (String.concat EmptyString
            ["Based on Eptura knowledge:"; newline; newline])
         0 relevantDocs
  else EmptyString.

Definition systemPrompt : string :=
  String.concat EmptyString
    ["You are an AI assistant for Eptura Asset Management."; newline; newline].

Definition systemMessage (context : string) : Msg.t :=
  Msg.mk "system" (String.append systemPrompt context).

(** [a.slice(-n)] *)
Definition sliceLast {A} (n : nat) (a : list A) : list A :=
  skipn (List.length a - n) a.

(** The [messages] array sent to the completion service. *)
Definition chatMessages (message : string) (conversation : list Msg.t)
  (relevantDocs : list Hit.t) : list Msg.t :=
  (systemMessage (chatContext relevantDocs)
     :: sliceLast 10 conversation ++ [Msg.mk "user" message])%list.

(** The [conversation] field of the body: absent, an array of messages,
    a string, or any other value ([null], a boolean, a number, an object),
    which has no [slice]. *)
Inductive Conversation : Type :=
| ConvAbsent
| ConvArray (turns : list Msg.t)
| ConvString (s : string)
| ConvOther.

(** An element of the [messages] array sent to the completion service:
    a message, or one character of a conversation given as a string,
    which the spread of [conversation.slice(-10)] yields one by one. *)
Inductive RequestItem : Type :=
| ItemMessage (m : Msg.t)
| ItemChar (c : ascii).

(** The [messages] array for each value of [conversation]; [None] when
    [conversation.slice] throws.  The default [[]] applies to an absent
    field only. *)
Definition sentMessages (message : string) (conversation : Conversation)
  (relevantDocs : list Hit.t) : option (list RequestItem) :=
  match conversation with
  | ConvAbsent => Some (map ItemMessage (chatMessages message [] relevantDocs))
  | ConvArray turns =>
      Some (map ItemMessage (chatMessages message turns relevantDocs))
  | ConvString s =>
      Some (ItemMessage (systemMessage (chatContext relevantDocs))
              :: map ItemChar (sliceLast 10 (list_ascii_of_string s))
              ++ [ItemMessage (Msg.mk "user" message)])%list
  | ConvOther => None
  end.

(** [app.post('/api/chat')].  [complete] is the completion service: the
    content of the first choice, or [None] when anything in the inner
    [try] throws.  An error thrown before the inner [try], by
    [message.toLowerCase] or by [conversation.slice], is caught by the
    outer one. *)
Definition apiChat (kb : JsMap.t Doc.t)
  (complete : list RequestItem -> option string)
  (message : JsValue) (conversation : Conversation)
  : nat * ChatBody :=
  if negb (truthy message) then (400, ChatError "Message is required.")
  else
    match message with
    | JString m =>
        let relevantDocs := searchKnowledgeBase kb m 3 in
        match sentMessages m conversation relevantDocs with
        | Some messages =>
            match complete messages with
            | Some response =>
                (200,
                 ChatReply response
                   (map (fun doc => Source.mk (Hit.title doc) (Hit.url doc))
                      relevantDocs))
            | None => (500, ChatError "Failed to process request with OpenAI")
            end
        | None => (500, ChatError "Internal server error")
        end
    | _ => (500, ChatError "Internal server error")
    end.

(** The [imageMap] object of [/api/ask], in the order of its keys. *)
Definition imageMap : list (string * string) :=
  [ ("workflow", "workflow-module.jpg");
    ("dashboard", "dashboard.png");
    ("sensor", "sensor-mapping.png");
    ("asset", "sample-asset.png") ].

(** [Object.keys(imageMap).find(key => prompt &&
    prompt.toLowerCase().includes(key))] for a prompt that is falsy or a
    string. *)
Definition findImageKey (prompt : JsValue) : option string :=
  match prompt with
  | JString p =>
      find (fun key => negb (p =? EmptyString)
                       && Js.includes (Js.toLowerCase p) key)
        (map fst imageMap)
  | _ => None
  end.

(** [imageMap[key]] inside a template literal. *)
Definition imageFile (key : string) : string :=
  match JsMap.get imageMap key with
  | Some file => file
  | None => "undefined"
  end.

(** [app.post('/api/ask')]: a truthy prompt that is not a string makes
    [prompt.toLowerCase()] throw. *)
Definition apiAsk (prompt : JsValue) : Outcome AskBody :=
  match prompt with
  | JTruthy => Threw
  | _ =>
      let imageKey := findImageKey prompt in
      Responded 200
        {| askText :=
             String.append "Here's the architecture diagram for: "
               (templateText prompt);
           image :=
             match imageKey with
             | Some key => Some (String.append "/images/" (imageFile key))
             | None => None
             end;
           imageAlt :=
             match imageKey with
             | Some key => String.append "Image for " key
             | None => "No image"
             end |}
  end.

(** The process state the status routes read: the Map and the time of
    the last completed pass, in milliseconds. *)
Record Server : Type :=
  { store : JsMap.t Doc.t; lastScrapeTime : option nat }.

(** [scrapeEpturaKnowledge] on the process state; [now] is the clock
    when the loop over the seeds is done. *)
Definition runScrape (web : Web) (now : nat) (srv : Server) : Server :=
  {| store := knowledgeBase (scrapeEpturaKnowledge web (store srv));
     lastScrapeTime := Some now |}.

(** [app.post('/api/scrape')]: the new state and the [total] sent. *)
Definition apiScrape (web : Web) (now : nat) (srv : Server)
  : Server * nat :=
  let srv' := runScrape web now srv in
  (srv', JsMap.size (store srv')).

(** [app.get('/api/knowledge/stats')]: [totalArticles], [lastScraped]. *)
Definition apiStats (srv : Server) : nat * option nat :=
  (JsMap.size (store srv), lastScrapeTime srv).

(** ** Further vocabulary *)

(** How the keys of the Map move between two states of a crawl: the
    earlier keys stay where they are, new keys come after them, and a
    URL is a key afterwards exactly when it was one before or one of the
    requests in between succeeded for it. *)
Definition KeysGrow (st st' : CrawlState) : Prop :=
  exists evs,
    fetchLog st' = (fetchLog st ++ evs)%list
    /\ (exists new,
          JsMap.keys (knowledgeBase st') =
          (JsMap.keys (knowledgeBase st) ++ new)%list)
    /\ (forall u,
          JsMap.has (knowledgeBase st') u = true <->
          JsMap.has (knowledgeBase st) u = true
          \/ exists e, In e evs /\ ev_url e = u /\ ev_ok e = true).

(** Every request between two states goes to the crawl domain. *)
Definition StaysInDomain (st st' : CrawlState) : Prop :=
  exists evs,
    fetchLog st' = (fetchLog st ++ evs)%list
    /\ Forall (fun e => Js.startsWith (ev_url e) crawlDomain = true) evs.

(** The request a call makes for its own section at request number [i]. *)
Definition ownFetch (web : Web) (s : Sec.t) (d i : nat) : FetchEvent :=
  {| ev_url := Sec.url s; ev_depth := d;
     ev_ok := match web i (Sec.url s) with Some _ => true | None => false end |}.

(** A web in which the seed page lists a guide and a page elsewhere. *)
Definition guideWeb : Web := fun _ u =>
  if u =? condecoUrl
  then Some (plainPage "Condeco Home" "Book a desk with Condeco"
               [link guideUrl; link "https://example.com/elsewhere";
                {| href := None; anchorText := "Top" |}])
  else if u =? guideUrl
  then Some (plainPage "Visitor Guide" "Register a visitor"
               [link "https://knowledge.eptura.com/condeco/deeper"])
  else None.

(** A completion service that answers the number of messages it got. *)
Definition countingService : list RequestItem -> option string :=
  fun messages => Some (decimal (List.length messages)).

Definition turn (n : nat) : Msg.t := Msg.mk "user" (decimal n).

(** Twelve earlier turns, numbered 0 to 11. *)
Definition longConversation : list Msg.t := map turn (seq 0 12).

(** * Properties of the search *)

Section SearchFacts.

Lemma includes_empty (s : string) : Js.includes s EmptyString = true.
Proof. destruct s; reflexivity. Qed.

Lemma matches_empty (doc : Doc.t) : matches (Js.toLowerCase EmptyString) doc = true.
Proof. unfold matches. simpl. now rewrite includes_empty. Qed.

Lemma filter_all_true {A} (f : A -> bool) (l : list A) :
  (forall x, f x = true) -> filter f l = l.
Proof.
  intros Hall. induction l as [|x l IH]; simpl; [reflexivity|].
  now rewrite Hall, IH.
Qed.

(** While fewer than [limit] results are held, the loop appends the
    matching documents it meets until [limit] is reached. *)
Lemma searchLoop_below_limit (entries : JsMap.t Doc.t) (q : string) (limit : Z) :
  forall results,
    (Z.of_nat (List.length results) < limit)%Z ->
    searchLoop entries q limit results =
    (results ++
       map toHit
         (firstn (Z.to_nat limit - List.length results)
            (filter (matches q) (map snd entries))))%list.
Proof.
  induction entries as [|[u doc] rest IH]; intros results Hlt; simpl.
  - now rewrite firstn_nil, app_nil_r.
  - destruct (matches q doc) eqn:Hm.
    + rewrite length_app. simpl List.length.
      destruct (limit <=? Z.of_nat (List.length results + 1))%Z eqn:Hle.
      * apply Z.leb_le in Hle.
        replace (Z.to_nat limit - List.length results) with 1 by lia.
        reflexivity.
      * apply Z.leb_gt in Hle.
        rewrite IH by (rewrite length_app; simpl; lia).
        rewrite length_app. simpl List.length.
        replace (Z.to_nat limit - List.length results)
          with (S (Z.to_nat limit - (List.length results + 1))) by lia.
        simpl. now rewrite <- app_assoc.
    + destruct (limit <=? Z.of_nat (List.length results))%Z eqn:Hle.
      * apply Z.leb_le in Hle. lia.
      * now apply IH.
Qed.

Lemma search_refines_spec (kb : JsMap.t Doc.t) (q : string) (n : Z) :
  (1 <= n)%Z -> searchKnowledgeBase kb q n = searchSpec kb q n.
Proof.
  intros Hn. unfold searchKnowledgeBase, searchSpec.
  rewrite searchLoop_below_limit by (simpl; lia).
  simpl. now rewrite Nat.sub_0_r.
Qed.

(** With a limit of zero or less the loop stops after the first entry. *)
Lemma search_nonpositive_limit (kb : JsMap.t Doc.t) (q : string) (n : Z) :
  (n <= 0)%Z ->
  searchKnowledgeBase kb q n =
  match kb with
  | [] => []
  | (_, doc) :: _ =>
      if matches (Js.toLowerCase q) doc then [toHit doc] else []
  end.
Proof.
  intros Hn. unfold searchKnowledgeBase. destruct kb as [|[u doc] rest];
    [reflexivity|]. simpl.
  destruct (matches (Js.toLowerCase q) doc); simpl.
  - destruct (n <=? 1)%Z eqn:E; [reflexivity | apply Z.leb_gt in E; lia].
  - destruct (n <=? 0)%Z eqn:E; [reflexivity | apply Z.leb_gt in E; lia].
Qed.

Lemma has_In_keys {V} (m : JsMap.t V) (k : string) :
  JsMap.has m k = true <-> In k (JsMap.keys m).
Proof.
  induction m as [|[k' v] m IH]; simpl.
  - split; [discriminate | tauto].
  - rewrite orb_true_iff, IH, String.eqb_eq. tauto.
Qed.

Lemma has_false_keys {V} (m : JsMap.t V) (k : string) :
  JsMap.has m k = false <-> ~ In k (JsMap.keys m).
Proof.
  rewrite <- has_In_keys. destruct (JsMap.has m k); split; intros;
    congruence.
Qed.

(** After [set], the only matching document is the one just written
    when no entry under another key matches. *)
Lemma filter_matches_set (q : string) (doc : Doc.t) (U : string) :
  matches q doc = true ->
  forall kb : JsMap.t Doc.t,
    JsMap.wf kb ->
    (forall u d, In (u, d) kb -> u <> U -> matches q d = false) ->
    filter (matches q) (map snd (JsMap.set kb U doc)) = [doc].
Proof.
  intros Hdoc. induction kb as [|[k v] kb IH]; intros Hwf Hothers; simpl.
  - now rewrite Hdoc.
  - unfold JsMap.wf in Hwf. simpl in Hwf. inversion Hwf as [|? ? Hnotin Hnd];
      subst.
    destruct (k =? U) eqn:E.
    + apply String.eqb_eq in E. subst k. simpl. rewrite Hdoc. f_equal.
      assert (Hnone : forall d, In d (map snd kb) -> matches q d = false).
      { intros d Hin. apply in_map_iff in Hin as [[u d'] [Hd Hin]].
        simpl in Hd. subst d'. apply (Hothers u d); [now right|].
        intros ->. apply Hnotin. unfold JsMap.keys.
        apply in_map_iff. now exists (U, d). }
      clear -Hnone. induction (map snd kb) as [|d l IHl]; simpl;
        [reflexivity|].
      rewrite (Hnone d) by now left. apply IHl. intros; apply Hnone.
      now right.
    + apply String.eqb_neq in E. simpl.
      rewrite (Hothers k v) by (now left || assumption).
      apply IH; [exact Hnd|]. intros u d Hin. apply Hothers. now right.
Qed.

Lemma In_firstn_In {A} (x : A) (n : nat) :
  forall l, In x (firstn n l) -> In x l.
Proof.
  induction n as [|n IH]; intros [|y l]; simpl; try tauto.
  intros [H|H]; [now left | right; now apply IH].
Qed.

End SearchFacts.

Section SearchClaims.

(** C4 (as stated, refuted): with limit 0 and a first document that
    matches, the search returns one result, more than the limit. *)
Lemma search_limit_zero_exceeds_limit :
  ~ (Z.of_nat (List.length (searchKnowledgeBase sampleStore "desk" 0)) <= 0)%Z.
Proof. intros H. vm_compute in H. apply H. reflexivity. Qed.

(** C4 (amended): for every query and every limit of at least 1, the
    search returns at most [limit] results, they are the first matching
    documents in insertion order, each comes from a stored document whose
    lower-cased title or content includes the lower-cased query, and the
    empty query matches every document. *)
Theorem search_first_matches_in_order (kb : JsMap.t Doc.t) (q : string) (n : Z) :
  (1 <= n)%Z ->
  (Z.of_nat (List.length (searchKnowledgeBase kb q n)) <= n)%Z
  /\ searchKnowledgeBase kb q n = searchSpec kb q n
  /\ (forall h, In h (searchKnowledgeBase kb q n) ->
        exists u doc,
          In (u, doc) kb /\ h = toHit doc
          /\ (Js.includes (Js.toLowerCase (Doc.title doc)) (Js.toLowerCase q)
              || Js.includes (Js.toLowerCase (Doc.content doc))
                   (Js.toLowerCase q)) = true)
  /\ (forall doc, matches (Js.toLowerCase EmptyString) doc = true).
Proof.
  intros Hn. rewrite (search_refines_spec kb q n Hn). unfold searchSpec.
  repeat split.
  - rewrite length_map, length_firstn. lia.
  - intros h Hin. apply in_map_iff in Hin as [doc [Hh Hin]].
    apply In_firstn_In in Hin. apply filter_In in Hin as [Hin Hm].
    apply in_map_iff in Hin as [[u d] [Hd Hin]]. simpl in Hd. subst d.
    exists u, doc. repeat split; [exact Hin | now symmetry | exact Hm].
  - apply matches_empty.
Qed.

Lemma search_first_matches_in_order_witness :
  (1 <= 5)%Z
  /\ searchKnowledgeBase sampleStore "DESK" 5 = [toHit condecoDoc].
Proof.
  split; [lia|].
  destruct (search_first_matches_in_order sampleStore "DESK" 5 ltac:(lia))
    as [_ [Heq _]].
  rewrite Heq. reflexivity.
Defined.

(** C5 (as stated, refuted): an empty query over a non-empty Map does
    not return the empty sequence. *)
Lemma search_empty_query_not_empty :
  searchKnowledgeBase sampleStore EmptyString 5 <> [].
Proof. vm_compute. discriminate. Qed.

(** C5 (amended): over an empty Map the search returns the empty
    sequence for every query and limit; with the empty query it returns
    the first [max limit 1] documents of the Map, which is the empty
    sequence exactly when the Map is empty.  The function is total, so no
    case raises. *)
Theorem search_empty_store_or_query (kb : JsMap.t Doc.t) (q : string) (n : Z) :
  searchKnowledgeBase JsMap.empty q n = []
  /\ searchKnowledgeBase kb EmptyString n =
     map toHit (firstn (Z.to_nat (Z.max n 1)) (map snd kb))
  /\ (searchKnowledgeBase kb EmptyString n = [] <-> kb = []).
Proof.
  assert (Hq : searchKnowledgeBase kb EmptyString n =
               map toHit (firstn (Z.to_nat (Z.max n 1)) (map snd kb))).
  { destruct (Z_le_gt_dec n 0) as [Hle|Hgt].
    - rewrite search_nonpositive_limit by exact Hle.
      replace (Z.max n 1) with 1%Z by lia.
      destruct kb as [|[u doc] rest]; [reflexivity|].
      now rewrite matches_empty.
    - rewrite search_refines_spec by lia. unfold searchSpec.
      replace (Z.max n 1) with n by lia.
      now rewrite (filter_all_true _ _ matches_empty). }
  split; [reflexivity|]. split; [exact Hq|].
  rewrite Hq. split.
  - destruct kb as [|[u doc] rest]; [reflexivity|].
    destruct (Z.to_nat (Z.max n 1)) eqn:E; [lia | discriminate].
  - intros ->. now rewrite firstn_nil.
Qed.

(** C7: after writing a document under URL [U], a search with a limit of
    at least 1 for a string that occurs, case-insensitively, in the
    written title and in no document stored under another URL returns
    exactly one result, and that result carries [U]. *)
Theorem store_then_search_roundtrip
  (kb : JsMap.t Doc.t) (U title content s : string) (n : Z) :
  JsMap.wf kb ->
  (1 <= n)%Z ->
  Js.includes (Js.toLowerCase title) (Js.toLowerCase s) = true ->
  (forall u d, In (u, d) kb -> u <> U ->
     matches (Js.toLowerCase s) d = false) ->
  exists hit,
    searchKnowledgeBase (JsMap.set kb U (Doc.mk title content U)) s n = [hit]
    /\ Hit.url hit = U /\ Hit.title hit = title.
Proof.
  intros Hwf Hn Htitle Hothers.
  exists (toHit (Doc.mk title content U)). split; [|split; reflexivity].
  rewrite search_refines_spec by exact Hn. unfold searchSpec.
  rewrite filter_matches_set; try assumption.
  - destruct (Z.to_nat n) eqn:E; [lia|]. simpl. now rewrite firstn_nil.
  - unfold matches. simpl. now rewrite Htitle.
Qed.

Lemma sampleStore_wf : JsMap.wf sampleStore.
Proof.
  unfold JsMap.wf. simpl. repeat constructor; simpl; intuition discriminate.
Qed.

Lemma store_then_search_roundtrip_witness :
  exists hit,
    searchKnowledgeBase
      (JsMap.set sampleStore proxyclickUrl
         (Doc.mk "Proxyclick Check-in" "Welcome guests" proxyclickUrl))
      "CHECK-IN" 3 = [hit]
    /\ Hit.url hit = proxyclickUrl /\ Hit.title hit = "Proxyclick Check-in".
Proof.
  apply store_then_search_roundtrip.
  - exact sampleStore_wf.
  - lia.
  - reflexivity.
  - intros u d [H|[H|[]]] _; inversion H; reflexivity.
Defined.

(** C10 (as stated, refuted): with limit 0, a Map whose second document
    matches and whose first does not yields no result at all. *)
Lemma search_limit_zero_later_match_lost :
  (exists u d, In (u, d) sampleStore
               /\ matches (Js.toLowerCase "visitor") d = true)
  /\ List.length (searchKnowledgeBase sampleStore "visitor" 0) <> 1.
Proof.
  split.
  - exists guideUrl, guideDoc. split; [right; left; reflexivity | reflexivity].
  - vm_compute. discriminate.
Qed.

(** C10 (amended): the limit is tested after the push and on every
    iteration, so for a limit of zero or less the loop stops after the
    first entry of the Map: the result is that one document if it
    matches and is empty otherwise, whatever later documents hold; one
    result is returned exactly when the first entry matches.  For a limit
    of at least 1 the number of results is at most the limit. *)
Theorem search_limit_tested_after_push
  (kb : JsMap.t Doc.t) (q : string) (n : Z) :
  (n <= 0)%Z ->
  searchKnowledgeBase kb q n =
  match kb with
  | [] => []
  | (_, doc) :: _ =>
      if matches (Js.toLowerCase q) doc then [toHit doc] else []
  end
  /\ (List.length (searchKnowledgeBase kb q n) = 1 <->
      exists u doc rest,
        kb = (u, doc) :: rest /\ matches (Js.toLowerCase q) doc = true)
  /\ (forall n', (1 <= n')%Z ->
        (Z.of_nat (List.length (searchKnowledgeBase kb q n')) <= n')%Z).
Proof.
  intros Hn. rewrite (search_nonpositive_limit kb q n Hn).
  split; [reflexivity|]. split.
  - destruct kb as [|[u doc] rest]; simpl.
    + split; [discriminate|]. intros [u [doc [rest [H _]]]]. discriminate.
    + destruct (matches (Js.toLowerCase q) doc) eqn:Hm; simpl.
      * split; [|reflexivity]. intros _. now exists u, doc, rest.
      * split; [discriminate|].
        intros [u' [doc' [rest' [H Hm']]]]. inversion H; subst. congruence.
  - intros n' Hn'. rewrite search_refines_spec by exact Hn'.
    unfold searchSpec. rewrite length_map, length_firstn. lia.
Qed.

Lemma search_limit_tested_after_push_witness :
  (-2 <= 0)%Z
  /\ searchKnowledgeBase sampleStore "desk" (-2) = [toHit condecoDoc].
Proof.
  split; [lia|].
  destruct (search_limit_tested_after_push sampleStore "desk" (-2))
    as [Heq _]; [lia|].
  rewrite Heq. reflexivity.
Defined.

End SearchClaims.

(** * Properties of the extracted content and title *)

Section ContentFacts.

Lemma hasWhitespaceRun_cons (c : ascii) (s : string) :
  hasWhitespaceRun (String c s) =
  (Js.isWhiteSpace c && startsWithWhitespace s) || hasWhitespaceRun s.
Proof. destruct s; simpl; [now rewrite andb_false_r | reflexivity]. Qed.

Lemma collapseFrom_shape (s : string) :
  forall inRun,
    hasWhitespaceRun (Js.collapseFrom inRun s) = false
    /\ (inRun = true -> startsWithWhitespace (Js.collapseFrom inRun s) = false).
Proof.
  induction s as [|c s IH]; intros inRun; simpl; [now split|].
  destruct (Js.isWhiteSpace c) eqn:Hc.
  - destruct inRun.
    + apply IH.
    + split; [|discriminate]. rewrite hasWhitespaceRun_cons.
      destruct (IH true) as [Hrun Hstart]. rewrite Hrun, Hstart by reflexivity.
      now rewrite andb_false_r.
  - split.
    + rewrite hasWhitespaceRun_cons, Hc. simpl. apply IH.
    + intros _. simpl. exact Hc.
Qed.

Lemma hasWhitespaceRun_tail (c : ascii) (s : string) :
  hasWhitespaceRun (String c s) = false -> hasWhitespaceRun s = false.
Proof.
  rewrite hasWhitespaceRun_cons. intros H. now apply orb_false_iff in H.
Qed.

Lemma trimStart_no_run (s : string) :
  hasWhitespaceRun s = false -> hasWhitespaceRun (Js.trimStart s) = false.
Proof.
  induction s as [|c s IH]; intros H; [reflexivity|].
  cbn [Js.trimStart]. destruct (Js.isWhiteSpace c); [|exact H].
  apply IH. now apply hasWhitespaceRun_tail in H.
Qed.

Lemma trimStart_no_leading (s : string) :
  startsWithWhitespace (Js.trimStart s) = false.
Proof.
  induction s as [|c s IH]; [reflexivity|]. cbn [Js.trimStart].
  destruct (Js.isWhiteSpace c) eqn:Hc; [exact IH | exact Hc].
Qed.

(** [trimEnd] keeps the first character unless it returns the empty string. *)
Lemma trimEnd_head (s : string) :
  Js.trimEnd s = EmptyString
  \/ startsWithWhitespace (Js.trimEnd s) = startsWithWhitespace s.
Proof.
  destruct s as [|c s]; [now left|]. cbn [Js.trimEnd].
  destruct (Js.trimEnd s).
  - destruct (Js.isWhiteSpace c); [now left | now right].
  - now right.
Qed.

Lemma trimEnd_no_run (s : string) :
  hasWhitespaceRun s = false -> hasWhitespaceRun (Js.trimEnd s) = false.
Proof.
  induction s as [|c s IH]; intros H; [reflexivity|].
  cbn [Js.trimEnd]. rewrite hasWhitespaceRun_cons in H.
  apply orb_false_iff in H as [Hhead Htail]. specialize (IH Htail).
  destruct (trimEnd_head s) as [E|E].
  - rewrite E. now destruct (Js.isWhiteSpace c).
  - destruct (Js.trimEnd s) as [|a r] eqn:Hr.
    + now destruct (Js.isWhiteSpace c).
    + rewrite hasWhitespaceRun_cons, E, Hhead. exact IH.
Qed.

Lemma trimEnd_no_leading (s : string) :
  startsWithWhitespace s = false ->
  startsWithWhitespace (Js.trimEnd s) = false.
Proof.
  intros H. destruct (trimEnd_head s) as [E|E]; rewrite E;
    [reflexivity | exact H].
Qed.

Lemma trimEnd_no_trailing (s : string) :
  endsWithWhitespace (Js.trimEnd s) = false.
Proof.
  induction s as [|c s IH]; [reflexivity|]. cbn [Js.trimEnd].
  destruct (Js.trimEnd s) as [|a r].
  - destruct (Js.isWhiteSpace c) eqn:Hc; [reflexivity | simpl; exact Hc].
  - exact IH.
Qed.

Lemma substring0_length (n : nat) :
  forall s, String.length (Js.substring0 n s) <= n.
Proof.
  induction n as [|n IH]; intros [|c s]; simpl; try lia.
  specialize (IH s). lia.
Qed.

Lemma substring0_short (n : nat) :
  forall s, String.length s <= n -> Js.substring0 n s = s.
Proof.
  induction n as [|n IH]; intros [|c s]; simpl; intros H;
    try reflexivity; try lia.
  f_equal. apply IH. lia.
Qed.

Lemma substring0_no_leading (n : nat) (s : string) :
  startsWithWhitespace s = false ->
  startsWithWhitespace (Js.substring0 n s) = false.
Proof. destruct n, s; simpl; auto. Qed.

Lemma substring0_no_run (n : nat) :
  forall s, hasWhitespaceRun s = false ->
            hasWhitespaceRun (Js.substring0 n s) = false.
Proof.
  induction n as [|n IH]; intros [|c s] H; try reflexivity.
  cbn [Js.substring0]. rewrite hasWhitespaceRun_cons in *.
  apply orb_false_iff in H as [Hhead Htail].
  rewrite (IH s Htail), orb_false_r.
  destruct (Js.isWhiteSpace c); [|reflexivity]. simpl in *.
  now apply substring0_no_leading.
Qed.

(** The normal form of every content written by the crawler. *)
Lemma pageContent_shape (page : Page) :
  String.length (pageContent page) <= 1000
  /\ hasWhitespaceRun (pageContent page) = false
  /\ startsWithWhitespace (pageContent page) = false
  /\ (String.length (Js.trim (Js.collapseWhitespace (bodyText page))) <= 1000 ->
      endsWithWhitespace (pageContent page) = false).
Proof.
  unfold pageContent, Js.trim, Js.collapseWhitespace.
  repeat split.
  - apply substring0_length.
  - apply substring0_no_run, trimEnd_no_run, trimStart_no_run, collapseFrom_shape.
  - apply substring0_no_leading, trimEnd_no_leading, trimStart_no_leading.
  - intros Hlen. rewrite substring0_short by exact Hlen.
    apply trimEnd_no_trailing.
Qed.

Lemma pageTitle_single (page : Page) (fallback : string) :
  List.length (titleElements page) <= 1 ->
  pageTitle page fallback = titleSpec page fallback.
Proof.
  unfold pageTitle, titleSpec, Js.text.
  destruct (titleElements page) as [|t [|t' l]]; simpl; intros H;
    [reflexivity | reflexivity | lia].
Qed.

End ContentFacts.

(** * Properties of the Map *)

Section MapFacts.

Context {V : Type}.
Implicit Types (m : JsMap.t V) (k u : string) (v : V).

Lemma has_set m k v u :
  JsMap.has (JsMap.set m k v) u = (k =? u) || JsMap.has m u.
Proof.
  induction m as [|[k' v'] m IH]; simpl.
  - reflexivity.
  - destruct (k' =? k) eqn:E; simpl.
    + apply String.eqb_eq in E. subst k'.
      destruct (k =? u); reflexivity.
    + rewrite IH. destruct (k' =? u), (k =? u); reflexivity.
Qed.

Lemma get_set_same m k v : JsMap.get (JsMap.set m k v) k = Some v.
Proof.
  induction m as [|[k' v'] m IH]; simpl.
  - now rewrite String.eqb_refl.
  - destruct (k' =? k) eqn:E; simpl.
    + now rewrite String.eqb_refl.
    + now rewrite E.
Qed.

Lemma get_set_other m k v u :
  u <> k -> JsMap.get (JsMap.set m k v) u = JsMap.get m u.
Proof.
  intros Hne. induction m as [|[k' v'] m IH]; simpl.
  - destruct (k =? u) eqn:E; [|reflexivity].
    apply String.eqb_eq in E. congruence.
  - destruct (k' =? k) eqn:E; simpl.
    + apply String.eqb_eq in E. subst k'.
      destruct (k =? u) eqn:E'; [|reflexivity].
      apply String.eqb_eq in E'. congruence.
    + now rewrite IH.
Qed.

Lemma In_set m k v u v0 :
  In (u, v0) (JsMap.set m k v) -> (u = k /\ v0 = v) \/ In (u, v0) m.
Proof.
  induction m as [|[k' v'] m IH]; simpl.
  - intros [H|[]]. inversion H. now left.
  - destruct (k' =? k) eqn:E; simpl.
    + intros [H|H]; [inversion H; now left | right; now right].
    + intros [H|H]; [right; now left|].
      destruct (IH H) as [?|?]; [now left | right; now right].
Qed.

Lemma wf_set m k v : JsMap.wf m -> JsMap.wf (JsMap.set m k v).
Proof.
  unfold JsMap.wf. induction m as [|[k' v'] m IH]; simpl; intros Hwf.
  - constructor; [tauto | constructor].
  - inversion Hwf as [|? ? Hnotin Hnd]; subst.
    destruct (k' =? k) eqn:E; simpl.
    + apply String.eqb_eq in E. subst k'. now constructor.
    + constructor; [|now apply IH].
      rewrite <- has_In_keys, has_set, orb_true_iff, has_In_keys.
      intros [H|H]; [|contradiction].
      apply String.eqb_eq in H. apply String.eqb_neq in E. congruence.
Qed.

End MapFacts.

(** * Properties of the crawler *)

Section CrawlFacts.

Variable web : Web.

Lemma collectLinks_not_stored (kb : JsMap.t Doc.t) (elements : list Anchor) :
  forall l, In l (collectLinks kb elements) ->
            JsMap.has kb (Sec.url l) = false
            /\ Js.startsWith (Sec.url l) crawlDomain = true.
Proof.
  induction elements as [|a rest IH]; simpl; intros l Hin; [contradiction|].
  destruct (href a) as [h|]; [|now apply IH].
  destruct (negb (h =? EmptyString) && Js.startsWith h crawlDomain
            && negb (JsMap.has kb h)) eqn:E; [|now apply IH].
  destruct Hin as [<-|Hin]; [|now apply IH]. simpl.
  apply andb_true_iff in E as [E Hhas]. apply andb_true_iff in E as [_ Hpre].
  apply negb_true_iff in Hhas. now split.
Qed.

(** The function satisfies the equation of the source: the guard, the
    request, the write, the collection of links and one recursive call
    per link at the next depth. *)
Lemma scrapeSectionRecursively_eq (section : Sec.t) (d maxDepth : nat)
  (st : CrawlState) :
  scrapeSectionRecursively web section d maxDepth st =
  if (maxDepth <? d)%nat then st
  else
    match web (List.length (fetchLog st)) (Sec.url section) with
    | None => afterFailure section d st
    | Some page =>
        fold_left
          (fun st' l => scrapeSectionRecursively web l (S d) maxDepth st')
          (collectLinks (knowledgeBase (afterStore section d page st))
             (anchors page))
          (afterStore section d page st)
    end.
Proof.
  unfold scrapeSectionRecursively.
  destruct (maxDepth <? d)%nat eqn:E.
  - destruct (S maxDepth - d); simpl; now rewrite E.
  - apply Nat.ltb_ge in E.
    replace (S maxDepth - d) with (S (maxDepth - d)) by lia.
    simpl. apply Nat.ltb_ge in E. rewrite E. reflexivity.
Qed.

(** Induction over the calls of a crawl: a relation that holds of the
    guarded return, of a failed request, and of a successful request
    followed by a chain of calls on the collected links, holds of every
    call. *)
Lemma scrapeSectionRecursively_ind (maxDepth : nat)
  (P : Sec.t -> nat -> CrawlState -> CrawlState -> Prop) :
  (forall s d st, maxDepth < d -> P s d st st) ->
  (forall s d st,
      d <= maxDepth ->
      web (List.length (fetchLog st)) (Sec.url s) = None ->
      P s d st (afterFailure s d st)) ->
  (forall s d st page st',
      d <= maxDepth ->
      web (List.length (fetchLog st)) (Sec.url s) = Some page ->
      LinkRuns P (S d)
        (collectLinks (knowledgeBase (afterStore s d page st)) (anchors page))
        (afterStore s d page st) st' ->
      P s d st st') ->
  forall s d st, P s d st (scrapeSectionRecursively web s d maxDepth st).
Proof.
  intros Hskip Hfail Hok.
  assert (Hgen : forall k s d st, maxDepth < d + k ->
                   P s d st (scrapeSectionRecursively web s d maxDepth st)).
  { induction k as [|k IH]; intros s d st Hk;
      rewrite scrapeSectionRecursively_eq;
      destruct (maxDepth <? d)%nat eqn:E;
      try (apply Hskip; now apply Nat.ltb_lt in E);
      apply Nat.ltb_ge in E; [lia|].
    destruct (web (List.length (fetchLog st)) (Sec.url s)) as [page|] eqn:Hw;
      [|now apply Hfail].
    apply (Hok s d st page); [exact E | exact Hw|].
    assert (Hruns : forall ls st1,
               LinkRuns P (S d) ls st1
                 (fold_left
                    (fun st' l =>
                       scrapeSectionRecursively web l (S d) maxDepth st')
                    ls st1)).
    { induction ls as [|l ls IHl]; intros st1; simpl; [constructor|].
      econstructor; [apply IH; lia | apply IHl]. }
    apply Hruns. }
  intros s d st. apply (Hgen (S maxDepth)). lia.
Qed.

End CrawlFacts.

Section CrawlEffects.

Variable web : Web.
Variable maxDepth : nat.

(** A chain of calls on links none of which is a key of [kb0] leaves the
    entries of [kb0] alone and only requests URLs outside [kb0]. *)
Lemma linkRuns_effect (d : nat) (kb0 : JsMap.t Doc.t) :
  forall links st1 st',
    LinkRuns (CrawlEffect maxDepth) d links st1 st' ->
    (forall u, JsMap.has kb0 u = true ->
       JsMap.has (knowledgeBase st1) u = true
       /\ JsMap.get (knowledgeBase st1) u = JsMap.get kb0 u) ->
    (forall l, In l links -> JsMap.has kb0 (Sec.url l) = false) ->
    (forall u, JsMap.has kb0 u = true ->
       JsMap.has (knowledgeBase st') u = true
       /\ JsMap.get (knowledgeBase st') u = JsMap.get kb0 u)
    /\ exists evs,
         fetchLog st' = (fetchLog st1 ++ evs)%list
         /\ Forall (fun e => d <= ev_depth e /\ ev_depth e <= maxDepth
                             /\ JsMap.has kb0 (ev_url e) = false) evs.
Proof.
  induction 1 as [st|l ls st st1 st2 Heff Hruns IH]; intros Hbase Hlinks.
  - split; [exact Hbase|]. exists []. now rewrite app_nil_r.
  - destruct Heff as [Hmono [Hframe Hlog]].
    assert (Hl : JsMap.has kb0 (Sec.url l) = false)
      by (apply Hlinks; now left).
    destruct IH as [Hkeep [evs2 [Hlog2 Hevs2]]].
    { intros u Hu. destruct (Hbase u Hu) as [Hhas Hget]. split.
      - now apply Hmono.
      - rewrite Hframe; [exact Hget | exact Hhas | congruence]. }
    { intros l' Hin. apply Hlinks. now right. }
    split; [exact Hkeep|].
    destruct Hlog as [[_ ->]|[Hd [ok [rest [Hlog1 [Hrest _]]]]]].
    + now exists evs2.
    + exists ({| ev_url := Sec.url l; ev_depth := d; ev_ok := ok |}
                :: rest ++ evs2)%list.
      split.
      * rewrite Hlog2, Hlog1, <- app_assoc. reflexivity.
      * constructor; [simpl; repeat split; [lia | exact Hd | exact Hl]|].
        apply Forall_app. split; [|exact Hevs2].
        eapply Forall_impl; [|exact Hrest].
        intros e [Hlt [Hle Hnot]]. repeat split; [lia | exact Hle|].
        destruct (JsMap.has kb0 (ev_url e)) eqn:E; [|reflexivity].
        destruct (Hbase _ E) as [Hhas _]. congruence.
Qed.

(** Every call has the effect described by [CrawlEffect]. *)
Lemma crawl_effect (s : Sec.t) (d : nat) (st : CrawlState) :
  CrawlEffect maxDepth s d st (scrapeSectionRecursively web s d maxDepth st).
Proof.
  revert s d st. apply scrapeSectionRecursively_ind.
  - intros s d st Hd. repeat split; auto.
  - intros s d st Hd Hw. repeat split; auto.
    right. split; [exact Hd|]. exists false, []. repeat split. constructor.
  - intros s d st page st' Hd Hw Hruns.
    apply linkRuns_effect
      with (kb0 := knowledgeBase (afterStore s d page st)) in Hruns.
    + destruct Hruns as [Hkeep [evs [Hlog Hevs]]]. simpl in Hkeep.
      assert (Hin : forall u, JsMap.has (knowledgeBase st) u = true ->
                JsMap.has (JsMap.set (knowledgeBase st) (Sec.url s)
                             (documentOf s page)) u = true).
      { intros u Hu. rewrite has_set, Hu. apply orb_true_r. }
      repeat split.
      * intros u Hu. now apply Hkeep, Hin.
      * intros u Hu Hne. destruct (Hkeep u (Hin u Hu)) as [_ ->].
        now apply get_set_other.
      * right. split; [exact Hd|]. exists true, evs. repeat split.
        -- rewrite Hlog. simpl. unfold logFetch. now rewrite <- app_assoc.
        -- eapply Forall_impl; [|exact Hevs]. simpl.
           intros e [Hlt [Hle Hnot]]. repeat split; [lia | exact Hle|].
           rewrite has_set in Hnot. now apply orb_false_iff in Hnot.
        -- discriminate.
        -- discriminate.
    + auto.
    + intros l Hl. now apply collectLinks_not_stored in Hl.
Qed.

Lemma linkRuns_fold (d : nat) (links : list Sec.t) :
  forall st,
    LinkRuns (CrawlEffect maxDepth) d links st
      (fold_left
         (fun st' l => scrapeSectionRecursively web l d maxDepth st')
         links st).
Proof.
  induction links as [|l ls IH]; intros st; simpl; [constructor|].
  econstructor; [apply crawl_effect | apply IH].
Qed.

(** After a successful request the call leaves, under the section's
    URL, the document it wrote: no later request of the call touches it. *)
Lemma own_document_kept (s : Sec.t) (d : nat) (st : CrawlState) (page : Page) :
  d <= maxDepth ->
  web (List.length (fetchLog st)) (Sec.url s) = Some page ->
  JsMap.get (knowledgeBase (scrapeSectionRecursively web s d maxDepth st))
    (Sec.url s) = Some (documentOf s page).
Proof.
  intros Hd Hw. rewrite scrapeSectionRecursively_eq, Hw.
  apply Nat.ltb_ge in Hd. rewrite Hd.
  pose proof (linkRuns_fold (S d)
                (collectLinks (knowledgeBase (afterStore s d page st))
                   (anchors page)) (afterStore s d page st)) as Hruns.
  apply linkRuns_effect
    with (kb0 := knowledgeBase (afterStore s d page st)) in Hruns.
  - destruct Hruns as [Hkeep _].
    destruct (Hkeep (Sec.url s)) as [_ ->]; simpl.
    + rewrite has_set, String.eqb_refl. reflexivity.
    + apply get_set_same.
  - auto.
  - intros l Hl. now apply collectLinks_not_stored in Hl.
Qed.

Lemma provenance_refl (st : CrawlState) : Provenance st st.
Proof. split; auto. Qed.

Lemma provenance_trans (st1 st2 st3 : CrawlState) :
  Provenance st1 st2 -> Provenance st2 st3 -> Provenance st1 st3.
Proof.
  intros [Hwf1 H1] [Hwf2 H2]. split; [auto|].
  intros u doc Hin. destruct (H2 u doc Hin) as [Hin2|Hnew]; [|now right].
  now apply H1.
Qed.

Lemma crawl_provenance (s : Sec.t) (d : nat) (st : CrawlState) :
  Provenance st (scrapeSectionRecursively web s d maxDepth st).
Proof.
  revert s d st.
  apply (scrapeSectionRecursively_ind web maxDepth
           (fun _ _ st st' => Provenance st st')).
  - intros. apply provenance_refl.
  - intros. split; auto.
  - intros s d st page st' _ _ Hruns.
    apply provenance_trans with (st2 := afterStore s d page st).
    + split; simpl; [apply wf_set|].
      intros u doc Hin. apply In_set in Hin as [[-> ->]|Hin]; [|now left].
      right. now exists page, (Sec.name s).
    + clear -Hruns. induction Hruns as [st0|l ls st0 st1 st2 H1 _ IH];
        [apply provenance_refl | now apply provenance_trans with st1].
Qed.

End CrawlEffects.

(** * Properties of a pass *)

Section PassFacts.

Variable web : Web.

Lemma filter_none {A} (f : A -> bool) (l : list A) :
  Forall (fun x => f x = false) l -> filter f l = [].
Proof.
  induction 1 as [|x l Hx _ IH]; simpl; [reflexivity|]. now rewrite Hx.
Qed.

Lemma deeperFetch_not_seed (kb : JsMap.t Doc.t) (evs : list FetchEvent) :
  Forall (deeperFetch 1 0 kb) evs ->
  Forall (fun e => isSeedFetch e = false) evs.
Proof.
  apply Forall_impl. intros e [Hlt _]. unfold isSeedFetch.
  apply Nat.eqb_neq. lia.
Qed.

(** The loop over the seeds: keys are kept, entries under keys that are
    not seeds are untouched, and the log grows by one depth-0 request per
    seed, in order, each followed by depth-1 requests for URLs that were
    not keys when the loop started. *)
Lemma scrapeSections_effect (seeds : list Sec.t) :
  forall st,
    (forall u, JsMap.has (knowledgeBase st) u = true ->
       JsMap.has (knowledgeBase (scrapeSections web seeds st)) u = true)
    /\ (forall u, JsMap.has (knowledgeBase st) u = true ->
          ~ In u (map Sec.url seeds) ->
          JsMap.get (knowledgeBase (scrapeSections web seeds st)) u =
          JsMap.get (knowledgeBase st) u)
    /\ exists evs,
         fetchLog (scrapeSections web seeds st) = (fetchLog st ++ evs)%list
         /\ Forall (fun e => (ev_depth e = 0 /\ In (ev_url e) (map Sec.url seeds))
                             \/ deeperFetch 1 0 (knowledgeBase st) e) evs
         /\ map ev_url (filter isSeedFetch evs) = map Sec.url seeds.
Proof.
  induction seeds as [|s seeds IH]; intros st.
  - simpl. repeat split; auto. exists []. rewrite app_nil_r. now repeat split.
  - cbn [scrapeSections fold_left].
    fold (scrapeSections web seeds (scrapeSectionRecursively web s 0 1 st)).
    destruct (crawl_effect web 1 s 0 st) as [Hmono [Hframe Hlog]].
    set (st1 := scrapeSectionRecursively web s 0 1 st) in *.
    destruct (IH st1) as [Hmono2 [Hframe2 [evs2 [Hlog2 [Hevs2 Hseeds2]]]]].
    destruct Hlog as [[Hlt _]|[_ [ok [rest [Hlog1 [Hrest _]]]]]]; [lia|].
    repeat split.
    + intros u Hu. now apply Hmono2, Hmono.
    + intros u Hu Hnot. simpl in Hnot.
      rewrite Hframe2; [|now apply Hmono | tauto].
      apply Hframe; [exact Hu|]. intros ->. tauto.
    + exists ({| ev_url := Sec.url s; ev_depth := 0; ev_ok := ok |}
                :: rest ++ evs2)%list.
      repeat split.
      * rewrite Hlog2, Hlog1, <- app_assoc. reflexivity.
      * constructor; [left; simpl; auto|].
        apply Forall_app. split.
        -- eapply Forall_impl; [|exact Hrest]. intros e He. now right.
        -- eapply Forall_impl; [|exact Hevs2].
           intros e [[H0 Hin]|[Hlt [Hle Hnot]]].
           ++ left. split; [exact H0 | now right].
           ++ right. repeat split; [exact Hlt | exact Hle|].
              destruct (JsMap.has (knowledgeBase st) (ev_url e)) eqn:E;
                [|reflexivity].
              apply Hmono in E. congruence.
      * cbn [filter isSeedFetch ev_depth Nat.eqb map ev_url].
        rewrite filter_app, (filter_none _ _ (deeperFetch_not_seed _ _ Hrest)).
        simpl. now rewrite Hseeds2.
Qed.

(** A failed request for a URL that was a key when the loop started
    leaves the entry of that URL as it was, the seeds being distinct. *)
Lemma scrapeSections_failure_preserves (seeds : list Sec.t) :
  NoDup (map Sec.url seeds) ->
  forall st u evs,
    JsMap.has (knowledgeBase st) u = true ->
    fetchLog (scrapeSections web seeds st) = (fetchLog st ++ evs)%list ->
    (exists e, In e evs /\ ev_url e = u /\ ev_ok e = false) ->
    JsMap.get (knowledgeBase (scrapeSections web seeds st)) u =
    JsMap.get (knowledgeBase st) u.
Proof.
  induction seeds as [|s seeds IH]; intros Hnd st u evs Hu Hlog [e [Hin [Heu Hfail]]].
  - simpl in Hlog. rewrite <- (app_nil_r (fetchLog st)) in Hlog at 1.
    apply app_inv_head in Hlog. subst evs. contradiction.
  - inversion Hnd as [|? ? Hs Hnd']; subst.
    cbn [scrapeSections fold_left] in *.
    fold (scrapeSections web seeds (scrapeSectionRecursively web s 0 1 st)) in *.
    destruct (crawl_effect web 1 s 0 st) as [Hmono [Hframe Hlog1]].
    set (st1 := scrapeSectionRecursively web s 0 1 st) in *.
    destruct (scrapeSections_effect seeds st1)
      as [_ [Hframe2 [evs2 [Hlog2 [Hevs2 _]]]]].
    destruct Hlog1 as [[Hlt _]|[_ [ok [rest [Hlog1 [Hrest Hok]]]]]]; [lia|].
    rewrite Hlog2, Hlog1, <- app_assoc in Hlog. apply app_inv_head in Hlog.
    subst evs. simpl in Hin.
    destruct Hin as [He|Hin]; [|apply in_app_or in Hin as [Hin|Hin]].
    + subst e. simpl in Hfail. subst ok.
      destruct Hok as [Hkb _]; [reflexivity|].
      rewrite Hframe2; [now rewrite Hkb | now apply Hmono | exact Hs].
    + rewrite Forall_forall in Hrest. destruct (Hrest _ Hin) as [_ [_ Hnot]].
      congruence.
    + destruct (string_dec (ev_url e) (Sec.url s)) as [Heq|Hne].
      * rewrite Forall_forall in Hevs2.
        destruct (Hevs2 _ Hin) as [[_ Hseed]|[_ [_ Hnot]]].
        -- rewrite Heq in Hseed. contradiction.
        -- apply Hmono in Hu. congruence.
      * rewrite (IH Hnd' st1 (ev_url e) evs2); auto.
        exists e. auto.
Qed.

Lemma count_occ_map_filter {A} (f : A -> string) (p : A -> bool) (u : string)
  (l : list A) :
  Forall (fun x => f x = u -> p x = true) l ->
  count_occ string_dec (map f l) u =
  count_occ string_dec (map f (filter p l)) u.
Proof.
  induction 1 as [|x l Hx _ IH]; simpl; [reflexivity|].
  destruct (p x) eqn:Hp; simpl.
  - now rewrite IH.
  - destruct (string_dec (f x) u) as [E|E]; [|exact IH].
    specialize (Hx E). congruence.
Qed.

Lemma seedUrls_NoDup : NoDup seedUrls.
Proof.
  apply (NoDup_count_occ' string_dec). intros u Hin.
  repeat (destruct Hin as [<-|Hin]; [reflexivity|]). contradiction.
Qed.

Lemma scrapeEpturaKnowledge_provenance (kb : JsMap.t Doc.t) :
  Provenance {| knowledgeBase := kb; fetchLog := [] |}
    (scrapeEpturaKnowledge web kb).
Proof.
  unfold scrapeEpturaKnowledge, scrapeSections.
  generalize {| knowledgeBase := kb; fetchLog := [] |}.
  induction KNOWLEDGE_SECTIONS as [|s seeds IH]; intros st; simpl.
  - apply provenance_refl.
  - eapply provenance_trans; [apply crawl_provenance | apply IH].
Qed.

End PassFacts.

Section PassSummary.

Variable web : Web.
Variable kb : JsMap.t Doc.t.

(** [scrapeSections_effect] read on a whole pass, whose log starts empty. *)
Lemma pass_effect :
  (forall u, JsMap.has kb u = true ->
     JsMap.has (knowledgeBase (scrapeEpturaKnowledge web kb)) u = true)
  /\ (forall u, JsMap.has kb u = true -> ~ In u seedUrls ->
        JsMap.get (knowledgeBase (scrapeEpturaKnowledge web kb)) u =
        JsMap.get kb u)
  /\ Forall (fun e => (ev_depth e = 0 /\ In (ev_url e) seedUrls)
                      \/ deeperFetch 1 0 kb e)
       (fetchLog (scrapeEpturaKnowledge web kb))
  /\ map ev_url (filter isSeedFetch (fetchLog (scrapeEpturaKnowledge web kb)))
     = seedUrls.
Proof.
  unfold scrapeEpturaKnowledge.
  destruct (scrapeSections_effect web KNOWLEDGE_SECTIONS
              {| knowledgeBase := kb; fetchLog := [] |})
    as [Hmono [Hframe [evs [Hlog [Hevs Hseeds]]]]].
  rewrite Hlog. cbn [knowledgeBase fetchLog app] in *.
  repeat split; assumption.
Qed.

Lemma stored_url_only_fetched_as_seed (u : string) (e : FetchEvent) :
  JsMap.has kb u = true ->
  In e (fetchLog (scrapeEpturaKnowledge web kb)) ->
  ev_url e = u ->
  ev_depth e = 0 /\ In u seedUrls.
Proof.
  intros Hu Hin Heu. destruct pass_effect as [_ [_ [Hevs _]]].
  rewrite Forall_forall in Hevs.
  destruct (Hevs e Hin) as [[H0 Hseed]|[_ [_ Hnot]]].
  - now rewrite <- Heu.
  - congruence.
Qed.

End PassSummary.

Lemma crawlPasses_keeps_nonseed (webs : list Web) :
  forall kb u,
    JsMap.has kb u = true -> ~ In u seedUrls ->
    JsMap.has (crawlPasses webs kb) u = true
    /\ JsMap.get (crawlPasses webs kb) u = JsMap.get kb u.
Proof.
  induction webs as [|w ws IH]; intros kb u Hu Hseed; [now split|].
  unfold crawlPasses in *. cbn [fold_left].
  destruct (pass_effect w kb) as [Hmono [Hframe _]].
  destruct (IH (knowledgeBase (scrapeEpturaKnowledge w kb)) u) as [Hhas Hget];
    [now apply Hmono | exact Hseed|].
  split; [exact Hhas|]. rewrite Hget. now apply Hframe.
Qed.

Lemma crawlPasses_provenance (webs : list Web) :
  forall kb,
    Provenance {| knowledgeBase := kb; fetchLog := [] |}
      {| knowledgeBase := crawlPasses webs kb; fetchLog := [] |}.
Proof.
  induction webs as [|w ws IH]; intros kb; [apply provenance_refl|].
  unfold crawlPasses in *. cbn [fold_left].
  eapply provenance_trans; [|apply IH].
  destruct (scrapeEpturaKnowledge_provenance w kb) as [Hwf Hin].
  split; [exact Hwf | exact Hin].
Qed.

(** * The claims about the crawler *)

Section CrawlClaims.

(** C1 (as stated, refuted): a pass can request one URL twice.  A page
    that links twice to a guide makes the pass request the guide twice;
    a guide that cannot be fetched and is linked from two seed pages is
    requested twice; and a seed that is already a key of the Map is
    requested all the same. *)
Lemma pass_fetches_url_twice :
  ~ NoDup (fetchedUrls (scrapeEpturaKnowledge dupLinkWeb JsMap.empty))
  /\ ~ NoDup (fetchedUrls (scrapeEpturaKnowledge brokenLinkWeb JsMap.empty))
  /\ (JsMap.has sampleStore condecoUrl = true
      /\ In condecoUrl (fetchedUrls (scrapeEpturaKnowledge offlineWeb sampleStore))).
Proof.
  repeat split.
  - intros H. apply (NoDup_count_occ string_dec) with (x := guideUrl) in H.
    vm_compute in H. lia.
  - intros H. apply (NoDup_count_occ string_dec) with (x := guideUrl) in H.
    vm_compute in H. lia.
  - vm_compute. now left.
Qed.

(** C1 (amended): in every pass, a URL that is a key of the Map before
    the pass starts is requested at most once, and only as a seed at
    depth 0, never as a discovered link; a link is collected from a page
    only if its URL is not a key of the Map when the page is scanned. *)
Theorem stored_url_fetched_at_most_once
  (web : Web) (kb : JsMap.t Doc.t) (u : string) :
  JsMap.has kb u = true ->
  count_occ string_dec (fetchedUrls (scrapeEpturaKnowledge web kb)) u <= 1
  /\ (forall e, In e (fetchLog (scrapeEpturaKnowledge web kb)) ->
                ev_url e = u -> ev_depth e = 0 /\ In u seedUrls)
  /\ (forall kb' elements l,
        In l (collectLinks kb' elements) -> JsMap.has kb' (Sec.url l) = false).
Proof.
  intros Hu. repeat split.
  - unfold fetchedUrls.
    rewrite (count_occ_map_filter ev_url isSeedFetch u).
    + destruct (pass_effect web kb) as [_ [_ [_ ->]]].
      apply NoDup_count_occ, seedUrls_NoDup.
    + apply Forall_forall. intros e Hin Heu.
      destruct (stored_url_only_fetched_as_seed web kb u e Hu Hin Heu)
        as [H0 _].
      unfold isSeedFetch. now rewrite H0.
  - now apply (stored_url_only_fetched_as_seed web kb u e).
  - now apply (stored_url_only_fetched_as_seed web kb u e).
  - intros kb' elements l Hin. now apply collectLinks_not_stored in Hin.
Qed.

Lemma stored_url_fetched_at_most_once_witness :
  JsMap.has sampleStore guideUrl = true
  /\ count_occ string_dec
       (fetchedUrls (scrapeEpturaKnowledge dupLinkWeb sampleStore)) guideUrl <= 1.
Proof.
  split; [reflexivity|].
  apply (stored_url_fetched_at_most_once dupLinkWeb sampleStore guideUrl).
  reflexivity.
Defined.

(** C2: for every URL that is a key of the Map before a pass, if a
    request for it fails during the pass, its entry after the pass is
    its entry before the pass; a failed call returns with the Map
    untouched and without any deeper request, and the loop over the
    seeds goes on: every seed is requested, whatever failed before it. *)
Theorem failed_fetch_preserves_entry
  (web : Web) (kb : JsMap.t Doc.t) (u : string) :
  JsMap.has kb u = true ->
  (exists e, In e (fetchLog (scrapeEpturaKnowledge web kb))
             /\ ev_url e = u /\ ev_ok e = false) ->
  JsMap.get (knowledgeBase (scrapeEpturaKnowledge web kb)) u = JsMap.get kb u
  /\ (forall s d m st,
        d <= m ->
        web (List.length (fetchLog st)) (Sec.url s) = None ->
        scrapeSectionRecursively web s d m st = afterFailure s d st)
  /\ map ev_url (filter isSeedFetch (fetchLog (scrapeEpturaKnowledge web kb)))
     = seedUrls.
Proof.
  intros Hu Hfail. split; [|split; [|apply pass_effect]].
  - unfold scrapeEpturaKnowledge in *.
    apply (scrapeSections_failure_preserves web KNOWLEDGE_SECTIONS
             seedUrls_NoDup {| knowledgeBase := kb; fetchLog := [] |} u
             (fetchLog (scrapeSections web KNOWLEDGE_SECTIONS
                          {| knowledgeBase := kb; fetchLog := [] |})));
      [exact Hu | reflexivity | exact Hfail].
  - intros s d m st Hd Hw. rewrite scrapeSectionRecursively_eq, Hw.
    apply Nat.ltb_ge in Hd. now rewrite Hd.
Qed.

Lemma failed_fetch_preserves_entry_witness :
  JsMap.get (knowledgeBase (scrapeEpturaKnowledge condecoDownWeb sampleStore))
    condecoUrl = Some condecoDoc.
Proof.
  apply (failed_fetch_preserves_entry condecoDownWeb sampleStore condecoUrl).
  - reflexivity.
  - exists {| ev_url := condecoUrl; ev_depth := 0; ev_ok := false |}.
    split; [vm_compute; now left | split; reflexivity].
Defined.

(** C3: no request of a pass is deeper than 1.  Seeds are requested at
    depth 0, one request each in the configured order; a call whose
    depth exceeds [maxDepth] returns at once; a successful call runs one
    call per collected link at the next depth; and a call at the bound
    makes its own request only, its links being collected but not
    requested. *)
Theorem fetch_depth_at_most_one (web : Web) (kb : JsMap.t Doc.t) :
  (forall e, In e (fetchLog (scrapeEpturaKnowledge web kb)) -> ev_depth e <= 1)
  /\ map ev_url (filter isSeedFetch (fetchLog (scrapeEpturaKnowledge web kb)))
     = seedUrls
  /\ (forall s d m st, m < d -> scrapeSectionRecursively web s d m st = st)
  /\ (forall s d m st page,
        d <= m ->
        web (List.length (fetchLog st)) (Sec.url s) = Some page ->
        scrapeSectionRecursively web s d m st =
        fold_left
          (fun st' l => scrapeSectionRecursively web l (S d) m st')
          (collectLinks (knowledgeBase (afterStore s d page st)) (anchors page))
          (afterStore s d page st))
  /\ (forall s m st,
        exists ok,
          fetchLog (scrapeSectionRecursively web s m m st) =
          logFetch st (Sec.url s) m ok).
Proof.
  destruct (pass_effect web kb) as [_ [_ [Hevs Hseeds]]].
  split; [|split; [exact Hseeds|split; [|split]]].
  - rewrite Forall_forall in Hevs. intros e Hin.
    destruct (Hevs e Hin) as [[H0 _]|[_ [Hle _]]]; lia.
  - intros s d m st Hlt. rewrite scrapeSectionRecursively_eq.
    apply Nat.ltb_lt in Hlt. now rewrite Hlt.
  - intros s d m st page Hd Hw. rewrite scrapeSectionRecursively_eq at 1.
    rewrite Hw. apply Nat.ltb_ge in Hd. now rewrite Hd.
  - intros s m st.
    destruct (crawl_effect web m s m st)
      as [_ [_ [[Hlt _]|[_ [ok [rest [Hlog [Hrest _]]]]]]]]; [lia|].
    exists ok. rewrite Hlog. unfold logFetch.
    destruct rest as [|e rest]; [reflexivity|].
    inversion Hrest as [|? ? [Hlt [Hle _]] _]; subst. lia.
Qed.

(** C6 (as stated, refuted): a body of 999 letters, a space and a
    letter is cut after the space, so the stored content ends with
    whitespace. *)
Lemma truncated_content_ends_with_space :
  exists doc,
    JsMap.get (knowledgeBase (scrapeEpturaKnowledge longBodyWeb JsMap.empty))
      condecoUrl = Some doc
    /\ endsWithWhitespace (Doc.content doc) = true.
Proof.
  eexists. split; [vm_compute; reflexivity | vm_compute; reflexivity].
Qed.

(** C6 (amended): every document the Map holds after any number of
    passes from the empty Map has a content of at most 1000 characters,
    without two adjacent whitespace characters and without leading
    whitespace; it is the collapsed, trimmed and truncated body text of a
    page, and it has no trailing whitespace whenever the collapsed and
    trimmed text did not exceed 1000 characters.  The same bounds hold of
    the document of every single write: for every section and every page
    the document written has a content of at most 1000 characters without
    whitespace run or leading whitespace, and without trailing whitespace
    whenever the collapsed and trimmed body text of that very page is at
    most 1000 characters long; the same holds of a stored content for
    every page it was computed from. *)
Theorem stored_content_normalized
  (webs : list Web) (u : string) (doc : Doc.t) :
  In (u, doc) (crawlPasses webs JsMap.empty) ->
  String.length (Doc.content doc) <= 1000
  /\ hasWhitespaceRun (Doc.content doc) = false
  /\ startsWithWhitespace (Doc.content doc) = false
  /\ (exists page,
        Doc.content doc = pageContent page
        /\ (String.length (Js.trim (Js.collapseWhitespace (bodyText page)))
            <= 1000 ->
            endsWithWhitespace (Doc.content doc) = false))
  /\ (forall s page,
        String.length (Doc.content (documentOf s page)) <= 1000
        /\ hasWhitespaceRun (Doc.content (documentOf s page)) = false
        /\ startsWithWhitespace (Doc.content (documentOf s page)) = false)
  /\ (forall s page,
        String.length (Js.trim (Js.collapseWhitespace (bodyText page)))
        <= 1000 ->
        endsWithWhitespace (Doc.content (documentOf s page)) = false)
  /\ (forall page,
        Doc.content doc = pageContent page ->
        String.length (Js.trim (Js.collapseWhitespace (bodyText page)))
        <= 1000 ->
        endsWithWhitespace (Doc.content doc) = false).
Proof.
  intros Hin.
  destruct (crawlPasses_provenance webs JsMap.empty) as [_ Hprov].
  destruct (Hprov u doc Hin) as [[]|[page [fallback ->]]]. simpl.
  destruct (pageContent_shape page) as [Hlen [Hrun [Hlead Htrail]]].
  split; [exact Hlen|]. split; [exact Hrun|]. split; [exact Hlead|].
  split; [now exists page|]. split; [|split].
  - intros s page0. destruct (pageContent_shape page0) as [H1 [H2 [H3 _]]].
    now repeat split.
  - intros s page0. apply (pageContent_shape page0).
  - intros page0 Heq. rewrite Heq. apply (pageContent_shape page0).
Qed.

Lemma stored_content_normalized_witness :
  String.length (Doc.content condecoDoc) <= 1000
  /\ hasWhitespaceRun (Doc.content condecoDoc) = false
  /\ startsWithWhitespace (Doc.content condecoDoc) = false.
Proof.
  destruct (stored_content_normalized [dupLinkWeb] condecoUrl condecoDoc)
    as [Hlen [Hrun [Hlead _]]].
  - vm_compute. now left.
  - now repeat split.
Defined.

(** C8 (as stated, refuted): for a page with two [<title>] elements the
    stored title is the text of both, not of the first. *)
Lemma title_combines_all_title_elements :
  exists doc,
    JsMap.get (knowledgeBase (scrapeEpturaKnowledge twoTitleWeb JsMap.empty))
      condecoUrl = Some doc
    /\ Doc.title doc = "Condeco HomeEptura logo"
    /\ Doc.title doc <> titleSpec twoTitlePage "Condeco".
Proof.
  eexists. split; [vm_compute; reflexivity|]. split; [reflexivity|].
  vm_compute. discriminate.
Qed.

(** C8 (amended): after a successful request, the document stored under
    the section's URL has as title the combined text of all [<title>]
    elements of the page, or the caller's fallback name when that text
    is empty; for a page with at most one [<title>] element this is the
    text of the first [<title>] element with the same fallback. *)
Theorem stored_title_is_combined_text
  (web : Web) (s : Sec.t) (d m : nat) (st : CrawlState) (page : Page) :
  d <= m ->
  web (List.length (fetchLog st)) (Sec.url s) = Some page ->
  exists doc,
    JsMap.get (knowledgeBase (scrapeSectionRecursively web s d m st))
      (Sec.url s) = Some doc
    /\ Doc.title doc =
       (if Js.text (titleElements page) =? EmptyString then Sec.name s
        else Js.text (titleElements page))
    /\ (List.length (titleElements page) <= 1 ->
        Doc.title doc = titleSpec page (Sec.name s)).
Proof.
  intros Hd Hw. exists (documentOf s page). split; [|split].
  - now apply own_document_kept.
  - reflexivity.
  - intros Hone. simpl. now apply pageTitle_single.
Qed.

Lemma stored_title_is_combined_text_witness :
  exists doc,
    JsMap.get
      (knowledgeBase
         (scrapeSectionRecursively dupLinkWeb (Sec.mk "Condeco" condecoUrl) 0 1
            {| knowledgeBase := JsMap.empty; fetchLog := [] |}))
      condecoUrl = Some doc
    /\ Doc.title doc = "Condeco Home".
Proof.
  destruct (stored_title_is_combined_text dupLinkWeb
              (Sec.mk "Condeco" condecoUrl) 0 1
              {| knowledgeBase := JsMap.empty; fetchLog := [] |}
              (plainPage "Condeco Home" "Book a desk with Condeco"
                 [link guideUrl; link guideUrl]))
    as [doc [Hget [Htitle _]]].
  - lia.
  - reflexivity.
  - exists doc. split; [exact Hget | exact Htitle].
Defined.

(** C9: for a URL that is a key of the Map when a pass starts: if it is
    a seed the pass requests it at depth 0 all the same; if it is not a
    seed the pass never requests it, and its entry is the same after any
    number of later passes; and no page scan collects it as a link,
    because the test is membership in the Map itself. *)
Theorem only_seeds_are_refetched
  (web : Web) (webs : list Web) (kb : JsMap.t Doc.t) (u : string) :
  JsMap.has kb u = true ->
  (In u seedUrls ->
   exists e, In e (fetchLog (scrapeEpturaKnowledge web kb))
             /\ ev_url e = u /\ ev_depth e = 0)
  /\ (~ In u seedUrls ->
      ~ In u (fetchedUrls (scrapeEpturaKnowledge web kb))
      /\ JsMap.get (crawlPasses webs kb) u = JsMap.get kb u)
  /\ (forall elements l, In l (collectLinks kb elements) -> Sec.url l <> u).
Proof.
  intros Hu. split; [|split].
  - intros Hseed. destruct (pass_effect web kb) as [_ [_ [_ Hseeds]]].
    rewrite <- Hseeds in Hseed.
    apply in_map_iff in Hseed as [e [Heu Hin]].
    apply filter_In in Hin as [Hin H0]. exists e.
    repeat split; [exact Hin | exact Heu | now apply Nat.eqb_eq in H0].
  - intros Hseed. split.
    + unfold fetchedUrls. intros Hin.
      apply in_map_iff in Hin as [e [Heu Hin]].
      now destruct (stored_url_only_fetched_as_seed web kb u e Hu Hin Heu).
    + now apply crawlPasses_keeps_nonseed.
  - intros elements l Hin Heq.
    apply collectLinks_not_stored in Hin as [Hnot _]. congruence.
Qed.

Lemma only_seeds_are_refetched_witness :
  JsMap.has sampleStore guideUrl = true
  /\ ~ In guideUrl (fetchedUrls (scrapeEpturaKnowledge dupLinkWeb sampleStore))
  /\ JsMap.get (crawlPasses [dupLinkWeb; condecoDownWeb] sampleStore) guideUrl
     = Some guideDoc.
Proof.
  split; [reflexivity|].
  destruct (only_seeds_are_refetched dupLinkWeb [dupLinkWeb; condecoDownWeb]
              sampleStore guideUrl) as [_ [Hnon _]]; [reflexivity|].
  apply Hnon. intros Hin.
  repeat (destruct Hin as [Hin|Hin]; [discriminate Hin|]). exact Hin.
Defined.

End CrawlClaims.

(** The end-to-end scenario of the specification: one seed, a page
    without links. *)
Example condeco_scenario :
  let web : Web := fun _ u =>
    if u =? condecoUrl
    then Some (plainPage "Condeco Home" "Book a desk with Condeco" [])
    else None in
  let st := scrapeSections web [Sec.mk "Condeco" condecoUrl]
              {| knowledgeBase := JsMap.empty; fetchLog := [] |} in
  knowledgeBase st = [(condecoUrl, condecoDoc)]
  /\ searchKnowledgeBase (knowledgeBase st) "desk" 5 = [toHit condecoDoc]
  /\ searchKnowledgeBase (knowledgeBase st) "zzz" 5 = [].
Proof. vm_compute. repeat split. Qed.

(** * Further properties of the crawler *)

Section KeyGrowth.

Variable web : Web.

Lemma keys_set {V} (m : JsMap.t V) (k : string) (v : V) :
  JsMap.keys (JsMap.set m k v) =
  if JsMap.has m k then JsMap.keys m else (JsMap.keys m ++ [k])%list.
Proof.
  induction m as [|[k' v'] m IH]; simpl; [reflexivity|].
  destruct (k' =? k) eqn:E; simpl.
  - apply String.eqb_eq in E. now subst k'.
  - rewrite IH. now destruct (JsMap.has m k).
Qed.

Lemma keysGrow_refl (st : CrawlState) : KeysGrow st st.
Proof.
  exists []. rewrite !app_nil_r. repeat split.
  - exists []. now rewrite app_nil_r.
  - now left.
  - intros [H|[e [[] _]]]. exact H.
Qed.

Lemma keysGrow_trans (st1 st2 st3 : CrawlState) :
  KeysGrow st1 st2 -> KeysGrow st2 st3 -> KeysGrow st1 st3.
Proof.
  intros [evs1 [Hlog1 [[new1 Hk1] Hhas1]]] [evs2 [Hlog2 [[new2 Hk2] Hhas2]]].
  exists (evs1 ++ evs2)%list. repeat split.
  - now rewrite Hlog2, Hlog1, app_assoc.
  - exists (new1 ++ new2)%list. now rewrite Hk2, Hk1, app_assoc.
  - intros H. apply Hhas2 in H as [H|[e [Hin He]]].
    + apply Hhas1 in H as [H|[e [Hin He]]]; [now left|].
      right. exists e. split; [apply in_or_app; now left | exact He].
    + right. exists e. split; [apply in_or_app; now right | exact He].
  - intros [H|[e [Hin He]]]; apply Hhas2.
    + left. apply Hhas1. now left.
    + apply in_app_or in Hin as [Hin|Hin].
      * left. apply Hhas1. right. now exists e.
      * right. now exists e.
Qed.

Lemma crawl_keysGrow (maxDepth : nat) (s : Sec.t) (d : nat) (st : CrawlState) :
  KeysGrow st (scrapeSectionRecursively web s d maxDepth st).
Proof.
  revert s d st.
  apply (scrapeSectionRecursively_ind web maxDepth
           (fun _ _ st st' => KeysGrow st st')).
  - intros. apply keysGrow_refl.
  - intros s d st _ _.
    exists [ {| ev_url := Sec.url s; ev_depth := d; ev_ok := false |} ].
    repeat split.
    + exists []. now rewrite app_nil_r.
    + now left.
    + intros [H|[e [[<-|[]] [_ Hok]]]]; [exact H | discriminate Hok].
  - intros s d st page st' _ _ Hruns.
    apply keysGrow_trans with (st2 := afterStore s d page st).
    + exists [ {| ev_url := Sec.url s; ev_depth := d; ev_ok := true |} ].
      simpl. repeat split.
      * rewrite keys_set.
        destruct (JsMap.has (knowledgeBase st) (Sec.url s));
          [exists []; now rewrite app_nil_r | now exists [Sec.url s]].
      * rewrite has_set. intros H. apply orb_true_iff in H as [H|H];
          [|now left].
        apply String.eqb_eq in H. right. eexists. split; [now left|].
        now split.
      * rewrite has_set. intros [H|[e [[<-|[]] [Hu _]]]].
        -- rewrite H. apply orb_true_r.
        -- simpl in Hu. subst u. now rewrite String.eqb_refl.
    + clear -Hruns. induction Hruns as [st0|l ls st0 st1 st2 H1 _ IH];
        [apply keysGrow_refl | now apply keysGrow_trans with st1].
Qed.

Lemma staysInDomain_refl (st : CrawlState) : StaysInDomain st st.
Proof. exists []. now rewrite app_nil_r. Qed.

Lemma staysInDomain_trans (st1 st2 st3 : CrawlState) :
  StaysInDomain st1 st2 -> StaysInDomain st2 st3 -> StaysInDomain st1 st3.
Proof.
  intros [evs1 [Hlog1 H1]] [evs2 [Hlog2 H2]]. exists (evs1 ++ evs2)%list.
  split; [now rewrite Hlog2, Hlog1, app_assoc | now apply Forall_app].
Qed.

Lemma crawl_staysInDomain (maxDepth : nat) (s : Sec.t) (d : nat)
  (st : CrawlState) :
  Js.startsWith (Sec.url s) crawlDomain = true ->
  StaysInDomain st (scrapeSectionRecursively web s d maxDepth st).
Proof.
  revert s d st.
  apply (scrapeSectionRecursively_ind web maxDepth
           (fun s _ st st' =>
              Js.startsWith (Sec.url s) crawlDomain = true ->
              StaysInDomain st st')).
  - intros. apply staysInDomain_refl.
  - intros s d st _ _ Hs.
    exists [ {| ev_url := Sec.url s; ev_depth := d; ev_ok := false |} ].
    split; [reflexivity | now repeat constructor].
  - intros s d st page st' _ _ Hruns Hs.
    apply staysInDomain_trans with (st2 := afterStore s d page st).
    + exists [ {| ev_url := Sec.url s; ev_depth := d; ev_ok := true |} ].
      split; [reflexivity | now repeat constructor].
    + assert (Hlinks : forall l,
                In l (collectLinks (knowledgeBase (afterStore s d page st))
                        (anchors page)) ->
                Js.startsWith (Sec.url l) crawlDomain = true)
        by (intros l Hl; now apply collectLinks_not_stored in Hl).
      revert Hruns Hlinks.
      generalize (collectLinks (knowledgeBase (afterStore s d page st))
                    (anchors page)) (afterStore s d page st).
      clear. intros links st1' Hruns Hlinks.
      induction Hruns as [st0|l ls st0 st1 st2 H1 _ IH];
        [apply staysInDomain_refl|].
      apply staysInDomain_trans with st1.
      * apply H1, Hlinks. now left.
      * apply IH. intros l' Hl'. apply Hlinks. now right.
Qed.

Lemma seeds_in_domain :
  Forall (fun s => Js.startsWith (Sec.url s) crawlDomain = true)
    KNOWLEDGE_SECTIONS.
Proof. repeat constructor. Qed.

Lemma pass_keysGrow (kb : JsMap.t Doc.t) :
  KeysGrow {| knowledgeBase := kb; fetchLog := [] |}
    (scrapeEpturaKnowledge web kb).
Proof.
  unfold scrapeEpturaKnowledge, scrapeSections.
  generalize {| knowledgeBase := kb; fetchLog := [] |}.
  induction KNOWLEDGE_SECTIONS as [|s seeds IH]; intros st; simpl.
  - apply keysGrow_refl.
  - eapply keysGrow_trans; [apply crawl_keysGrow | apply IH].
Qed.

Lemma pass_staysInDomain (kb : JsMap.t Doc.t) :
  StaysInDomain {| knowledgeBase := kb; fetchLog := [] |}
    (scrapeEpturaKnowledge web kb).
Proof.
  unfold scrapeEpturaKnowledge, scrapeSections.
  generalize {| knowledgeBase := kb; fetchLog := [] |}.
  generalize seeds_in_domain.
  induction KNOWLEDGE_SECTIONS as [|s seeds IH]; intros Hdom st; simpl.
  - apply staysInDomain_refl.
  - inversion Hdom as [|? ? Hs Hrest]; subst.
    eapply staysInDomain_trans;
      [apply crawl_staysInDomain; exact Hs | apply IH; exact Hrest].
Qed.

End KeyGrowth.

Section CrawlReach.

Variable web : Web.

Lemma get_Some_has {V} (m : JsMap.t V) (k : string) (v : V) :
  JsMap.get m k = Some v -> JsMap.has m k = true.
Proof.
  induction m as [|[k' v'] m IH]; simpl; [discriminate|].
  destruct (k' =? k); [reflexivity | exact IH].
Qed.

Lemma fold_keysGrow (maxDepth d : nat) (links : list Sec.t) :
  forall st,
    KeysGrow st
      (fold_left (fun st' l => scrapeSectionRecursively web l d maxDepth st')
         links st).
Proof.
  induction links as [|l ls IH]; intros st; simpl.
  - apply keysGrow_refl.
  - eapply keysGrow_trans; [apply crawl_keysGrow | apply IH].
Qed.

(** A call within the depth bound first logs the request for its own
    section, successful exactly when the web answers with a page. *)
Lemma call_head_event (maxDepth : nat) (s : Sec.t) (d : nat) (st : CrawlState) :
  d <= maxDepth ->
  exists rest,
    fetchLog (scrapeSectionRecursively web s d maxDepth st) =
    (fetchLog st ++ ownFetch web s d (List.length (fetchLog st)) :: rest)%list.
Proof.
  intros Hd. rewrite scrapeSectionRecursively_eq.
  apply Nat.ltb_ge in Hd. rewrite Hd. unfold ownFetch.
  destruct (web (List.length (fetchLog st)) (Sec.url s)) as [page|].
  - destruct (fold_keysGrow maxDepth (S d)
                (collectLinks (knowledgeBase (afterStore s d page st))
                   (anchors page)) (afterStore s d page st))
      as [evs [Hlog _]].
    exists evs. rewrite Hlog. simpl. unfold logFetch.
    now rewrite <- app_assoc.
  - now exists [].
Qed.

Lemma collectLinks_complete (kb : JsMap.t Doc.t) (elements : list Anchor)
  (a : Anchor) (h : string) :
  In a elements ->
  href a = Some h ->
  h <> EmptyString ->
  Js.startsWith h crawlDomain = true ->
  JsMap.has kb h = false ->
  In (Sec.mk (anchorText a) h) (collectLinks kb elements).
Proof.
  intros Hin Hh Hne Hdom Hnot.
  induction elements as [|a' rest IH]; [contradiction|]. simpl.
  destruct Hin as [->|Hin].
  - rewrite Hh, Hdom, Hnot.
    apply String.eqb_neq in Hne. rewrite Hne. now left.
  - destruct (href a') as [h'|]; [|now apply IH].
    destruct (negb (h' =? EmptyString) && Js.startsWith h' crawlDomain
              && negb (JsMap.has kb h')); [right|]; now apply IH.
Qed.

Lemma fold_requests_each_link (maxDepth d : nat) (links : list Sec.t) :
  d <= maxDepth ->
  forall st l,
    In l links ->
    exists ok,
      In {| ev_url := Sec.url l; ev_depth := d; ev_ok := ok |}
        (fetchLog
           (fold_left
              (fun st' l' => scrapeSectionRecursively web l' d maxDepth st')
              links st)).
Proof.
  intros Hd. induction links as [|l0 ls IH]; intros st l Hin;
    [contradiction|]. simpl.
  destruct Hin as [->|Hin]; [|now apply IH].
  destruct (call_head_event maxDepth l d st Hd) as [rest Hlog].
  destruct (fold_keysGrow maxDepth d ls
              (scrapeSectionRecursively web l d maxDepth st))
    as [evs [Hlog2 _]].
  eexists. rewrite Hlog2, Hlog. apply in_or_app. left.
  apply in_or_app. right. left. reflexivity.
Qed.

(** For distinct seeds, each seed is requested at depth 0 and, when the
    request succeeds, its entry at the end of the loop is the document of
    the page received. *)
Lemma scrapeSections_seed_refreshed (seeds : list Sec.t) :
  NoDup (map Sec.url seeds) ->
  forall st s,
    In s seeds ->
    exists i,
      nth_error (fetchLog (scrapeSections web seeds st)) i =
      Some (ownFetch web s 0 i)
      /\ forall page,
           web i (Sec.url s) = Some page ->
           JsMap.get (knowledgeBase (scrapeSections web seeds st)) (Sec.url s)
           = Some (documentOf s page).
Proof.
  induction seeds as [|s0 seeds IH]; intros Hnd st s Hin; [contradiction|].
  inversion Hnd as [|? ? Hs0 Hnd']; subst.
  cbn [scrapeSections fold_left].
  fold (scrapeSections web seeds (scrapeSectionRecursively web s0 0 1 st)).
  destruct Hin as [->|Hin]; [|now apply IH].
  destruct (call_head_event 1 s 0 st) as [rest Hlog]; [lia|].
  destruct (scrapeSections_effect web seeds
              (scrapeSectionRecursively web s 0 1 st))
    as [_ [Hframe [evs [Hlog2 _]]]].
  exists (List.length (fetchLog st)). split.
  - rewrite Hlog2, Hlog, <- app_assoc.
    rewrite nth_error_app2 by lia. now rewrite Nat.sub_diag.
  - intros page Hw.
    pose proof (own_document_kept web 1 s 0 st page ltac:(lia) Hw) as Hown.
    rewrite Hframe; [exact Hown | now apply get_Some_has in Hown | exact Hs0].
Qed.

Lemma scrapeSections_all_fail (seeds : list Sec.t) :
  (forall i s, In s seeds -> web i (Sec.url s) = None) ->
  forall st,
    scrapeSections web seeds st =
    {| knowledgeBase := knowledgeBase st;
       fetchLog :=
         (fetchLog st
            ++ map (fun s => {| ev_url := Sec.url s; ev_depth := 0;
                                ev_ok := false |}) seeds)%list |}.
Proof.
  induction seeds as [|s seeds IH]; intros Hfail st.
  - simpl. rewrite app_nil_r. now destruct st.
  - cbn [scrapeSections fold_left].
    fold (scrapeSections web seeds (scrapeSectionRecursively web s 0 1 st)).
    rewrite scrapeSectionRecursively_eq.
    rewrite (Hfail _ s) by now left. cbn [Nat.ltb Nat.leb].
    rewrite IH by (intros i s' Hin; apply Hfail; now right).
    simpl. unfold logFetch. now rewrite <- app_assoc.
Qed.

End CrawlReach.

Section CrawlExtras.

Lemma pass_size_monotone (web : Web) (kb : JsMap.t Doc.t) :
  JsMap.size kb <= JsMap.size (knowledgeBase (scrapeEpturaKnowledge web kb)).
Proof.
  destruct (pass_keysGrow web kb) as [evs [_ [[new Hkeys] _]]].
  simpl in Hkeys. unfold JsMap.size.
  rewrite <- (length_map fst kb),
    <- (length_map fst (knowledgeBase (scrapeEpturaKnowledge web kb))).
  unfold JsMap.keys in Hkeys. rewrite Hkeys, length_app. lia.
Qed.

Lemma pass_keys_in_domain (web : Web) (kb : JsMap.t Doc.t) :
  (forall k, JsMap.has kb k = true -> Js.startsWith k crawlDomain = true) ->
  forall k,
    JsMap.has (knowledgeBase (scrapeEpturaKnowledge web kb)) k = true ->
    Js.startsWith k crawlDomain = true.
Proof.
  intros Hkb k Hk.
  destruct (pass_keysGrow web kb) as [evs [Hlog [_ Hhas]]].
  destruct (pass_staysInDomain web kb) as [evs' [Hlog' Hdom]].
  cbn [fetchLog knowledgeBase app] in Hlog, Hlog', Hhas.
  assert (Heq : evs' = evs) by congruence. subst evs'.
  apply Hhas in Hk. destruct Hk as [Hk|[e [Hin [Heu _]]]]; [now apply Hkb|].
  rewrite Forall_forall in Hdom. rewrite <- Heu. apply Hdom.
  now rewrite Hlog.
Qed.

(** X1: a pass never removes or moves a key of the Map: the keys before
    the pass are, in the same order, the first keys after it, new keys
    come behind them, and the size does not decrease. *)
Theorem pass_keeps_key_order (web : Web) (kb : JsMap.t Doc.t) :
  (exists new,
     JsMap.keys (knowledgeBase (scrapeEpturaKnowledge web kb)) =
     (JsMap.keys kb ++ new)%list)
  /\ JsMap.size kb <= JsMap.size (knowledgeBase (scrapeEpturaKnowledge web kb)).
Proof.
  destruct (pass_keysGrow web kb) as [evs [_ [[new Hkeys] _]]].
  simpl in Hkeys. split; [now exists new | apply pass_size_monotone].
Qed.

(** X2: a URL is a key of the Map after a pass exactly when it was a key
    before the pass or some request of the pass for it succeeded. *)
Theorem key_iff_stored_or_fetched
  (web : Web) (kb : JsMap.t Doc.t) (u : string) :
  JsMap.has (knowledgeBase (scrapeEpturaKnowledge web kb)) u = true <->
  JsMap.has kb u = true
  \/ exists e, In e (fetchLog (scrapeEpturaKnowledge web kb))
               /\ ev_url e = u /\ ev_ok e = true.
Proof.
  destruct (pass_keysGrow web kb) as [evs [Hlog [_ Hhas]]].
  simpl in Hlog, Hhas. rewrite Hlog. apply Hhas.
Qed.

(** X3: every request of a pass goes to a URL that starts with the
    crawl domain, whatever the pages link to. *)
Theorem requests_stay_in_domain (web : Web) (kb : JsMap.t Doc.t) :
  Forall (fun u => Js.startsWith u crawlDomain = true)
    (fetchedUrls (scrapeEpturaKnowledge web kb)).
Proof.
  destruct (pass_staysInDomain web kb) as [evs [Hlog Hdom]].
  simpl in Hlog. unfold fetchedUrls. rewrite Hlog.
  apply Forall_map. exact Hdom.
Qed.

(** X4: after any number of passes from the empty Map, every document
    is stored under its own [url], that URL starts with the crawl domain,
    and no key occurs twice. *)
Theorem store_entries_keyed_by_own_url (webs : list Web) :
  Forall (fun entry =>
            Doc.url (snd entry) = fst entry
            /\ Js.startsWith (fst entry) crawlDomain = true)
    (crawlPasses webs JsMap.empty)
  /\ JsMap.wf (crawlPasses webs JsMap.empty).
Proof.
  destruct (crawlPasses_provenance webs JsMap.empty) as [Hwf Hprov].
  split; [|apply Hwf; constructor].
  apply Forall_forall. intros [u doc] Hin. simpl. split.
  - destruct (Hprov u doc Hin) as [[]|[page [fallback ->]]]. reflexivity.
  - assert (Hkey : JsMap.has (crawlPasses webs JsMap.empty) u = true).
    { apply has_In_keys. unfold JsMap.keys. apply in_map_iff.
      now exists (u, doc). }
    clear Hin Hprov Hwf. revert Hkey.
    assert (Hgen : forall kb,
               (forall k, JsMap.has kb k = true ->
                          Js.startsWith k crawlDomain = true) ->
               JsMap.has (crawlPasses webs kb) u = true ->
               Js.startsWith u crawlDomain = true).
    { induction webs as [|w ws IH]; intros kb Hkb Hu; [now apply Hkb|].
      unfold crawlPasses in *. cbn [fold_left] in Hu.
      apply (IH (knowledgeBase (scrapeEpturaKnowledge w kb))); [|exact Hu].
      now apply pass_keys_in_domain. }
    apply Hgen. discriminate.
Qed.

(** X5: in every pass each seed is requested at depth 0, and a seed
    whose request succeeds ends the pass with the document built from
    the page that request received, whatever the Map held before. *)
Theorem seed_refreshed_on_success
  (web : Web) (kb : JsMap.t Doc.t) (s : Sec.t) :
  In s KNOWLEDGE_SECTIONS ->
  exists i,
    nth_error (fetchLog (scrapeEpturaKnowledge web kb)) i =
    Some (ownFetch web s 0 i)
    /\ forall page,
         web i (Sec.url s) = Some page ->
         JsMap.get (knowledgeBase (scrapeEpturaKnowledge web kb)) (Sec.url s)
         = Some (documentOf s page).
Proof.
  intros Hin.
  exact (scrapeSections_seed_refreshed web KNOWLEDGE_SECTIONS seedUrls_NoDup
           {| knowledgeBase := kb; fetchLog := [] |} s Hin).
Qed.

Lemma seed_refreshed_on_success_witness :
  exists i,
    nth_error (fetchLog (scrapeEpturaKnowledge guideWeb sampleStore)) i =
    Some (ownFetch guideWeb (Sec.mk "Condeco" condecoUrl) 0 i)
    /\ forall page,
         guideWeb i condecoUrl = Some page ->
         JsMap.get (knowledgeBase (scrapeEpturaKnowledge guideWeb sampleStore))
           condecoUrl
         = Some (documentOf (Sec.mk "Condeco" condecoUrl) page).
Proof.
  apply (seed_refreshed_on_success guideWeb sampleStore
           (Sec.mk "Condeco" condecoUrl)).
  now left.
Defined.

(** X6: below the depth bound, a call whose request succeeds requests
    every anchor of the page whose [href] is non-empty, starts with the
    crawl domain, is not the page's own URL and is not yet a key of the
    Map, at the next depth. *)
Theorem discovered_link_is_requested
  (web : Web) (s : Sec.t) (d m : nat) (st : CrawlState)
  (page : Page) (a : Anchor) (h : string) :
  d < m ->
  web (List.length (fetchLog st)) (Sec.url s) = Some page ->
  In a (anchors page) ->
  href a = Some h ->
  h <> EmptyString ->
  Js.startsWith h crawlDomain = true ->
  JsMap.has (knowledgeBase st) h = false ->
  h <> Sec.url s ->
  exists ok,
    In {| ev_url := h; ev_depth := S d; ev_ok := ok |}
      (fetchLog (scrapeSectionRecursively web s d m st)).
Proof.
  intros Hd Hw Hin Hh Hne Hdom Hnot Hself.
  rewrite scrapeSectionRecursively_eq, Hw.
  assert (E : (m <? d)%nat = false) by (apply Nat.ltb_ge; lia). rewrite E.
  apply (fold_requests_each_link web m (S d) _ ltac:(lia) _
           (Sec.mk (anchorText a) h)).
  apply collectLinks_complete; try assumption.
  simpl. rewrite has_set, Hnot, orb_false_r.
  apply String.eqb_neq. congruence.
Qed.

Lemma discovered_link_is_requested_witness :
  exists ok,
    In {| ev_url := guideUrl; ev_depth := 1; ev_ok := ok |}
      (fetchLog
         (scrapeSectionRecursively guideWeb (Sec.mk "Condeco" condecoUrl) 0 1
            {| knowledgeBase := JsMap.empty; fetchLog := [] |})).
Proof.
  apply (discovered_link_is_requested guideWeb (Sec.mk "Condeco" condecoUrl)
           0 1 {| knowledgeBase := JsMap.empty; fetchLog := [] |}
           (plainPage "Condeco Home" "Book a desk with Condeco"
              [link guideUrl; link "https://example.com/elsewhere";
               {| href := None; anchorText := "Top" |}])
           (link guideUrl) guideUrl).
  - lia.
  - reflexivity.
  - now left.
  - reflexivity.
  - discriminate.
  - reflexivity.
  - reflexivity.
  - discriminate.
Defined.

(** X7: when no seed can be fetched, the pass leaves the Map exactly as
    it was and makes seven requests, one failed request per seed in the
    configured order. *)
Theorem unreachable_seeds_leave_store
  (web : Web) (kb : JsMap.t Doc.t) :
  (forall i s, In s KNOWLEDGE_SECTIONS -> web i (Sec.url s) = None) ->
  knowledgeBase (scrapeEpturaKnowledge web kb) = kb
  /\ fetchLog (scrapeEpturaKnowledge web kb) =
     map (fun s => {| ev_url := Sec.url s; ev_depth := 0; ev_ok := false |})
       KNOWLEDGE_SECTIONS.
Proof.
  intros Hfail. unfold scrapeEpturaKnowledge.
  rewrite (scrapeSections_all_fail web KNOWLEDGE_SECTIONS Hfail).
  split; reflexivity.
Qed.

Lemma unreachable_seeds_leave_store_witness :
  knowledgeBase (scrapeEpturaKnowledge offlineWeb sampleStore) = sampleStore
  /\ List.length (fetchLog (scrapeEpturaKnowledge offlineWeb sampleStore)) = 7.
Proof.
  destruct (unreachable_seeds_leave_store offlineWeb sampleStore)
    as [Hkb Hlog]; [reflexivity|].
  split; [exact Hkb | now rewrite Hlog].
Defined.

(** X8: the [total] sent by [/api/scrape] is what [/api/knowledge/stats]
    reports afterwards, it is never below what the stats reported before,
    and the time of the last pass is set by every pass, also by one in
    which requests failed. *)
Theorem scrape_total_never_decreases (web : Web) (now : nat) (srv : Server) :
  fst (apiStats srv) <= snd (apiScrape web now srv)
  /\ apiStats (fst (apiScrape web now srv)) =
     (snd (apiScrape web now srv), Some now).
Proof.
  split; [|reflexivity]. simpl.
  apply (pass_size_monotone web (store srv)).
Qed.

End CrawlExtras.

(** * Further properties of the search *)

Section SearchExtras.

Lemma string_length_append (a b : string) :
  String.length (String.append a b) = String.length a + String.length b.
Proof. induction a as [|c a IH]; simpl; [reflexivity | now rewrite IH]. Qed.

(** For every limit, the result is the image of a prefix of the
    matching documents in insertion order. *)
Lemma search_is_prefix_of_matches (kb : JsMap.t Doc.t) (q : string) (n : Z) :
  exists k,
    searchKnowledgeBase kb q n =
    map toHit (firstn k (filter (matches (Js.toLowerCase q)) (map snd kb))).
Proof.
  destruct (Z_le_gt_dec n 0) as [Hle|Hgt].
  - rewrite search_nonpositive_limit by exact Hle.
    destruct kb as [|[u doc] rest]; [now exists 0|]. simpl.
    destruct (matches (Js.toLowerCase q) doc); [now exists 1 | now exists 0].
  - exists (Z.to_nat n). apply search_refines_spec. lia.
Qed.

Lemma NoDup_map_firstn {A B} (g : A -> B) (k : nat) :
  forall l, NoDup (map g l) -> NoDup (map g (firstn k l)).
Proof.
  induction k as [|k IH]; intros [|x l] Hnd; simpl; try constructor.
  - inversion Hnd as [|? ? Hx Hl]; subst. intros Hin. apply Hx.
    apply in_map_iff in Hin as [y [Hy Hin]]. apply In_firstn_In in Hin.
    apply in_map_iff. now exists y.
  - inversion Hnd; subst. now apply IH.
Qed.

Lemma NoDup_map_filter {A B} (g : A -> B) (f : A -> bool) :
  forall l, NoDup (map g l) -> NoDup (map g (filter f l)).
Proof.
  induction l as [|x l IH]; intros Hnd; simpl; [constructor|].
  inversion Hnd as [|? ? Hx Hl]; subst.
  destruct (f x); [|now apply IH]. simpl. constructor; [|now apply IH].
  intros Hin. apply Hx. apply in_map_iff in Hin as [y [Hy Hin]].
  apply filter_In in Hin as [Hin _]. apply in_map_iff. now exists y.
Qed.

Lemma urls_are_keys (kb : JsMap.t Doc.t) :
  Forall (fun entry => Doc.url (snd entry) = fst entry) kb ->
  map Doc.url (map snd kb) = JsMap.keys kb.
Proof.
  induction 1 as [|[u doc] kb Hx _ IH]; simpl; [reflexivity|].
  simpl in Hx. now rewrite Hx, IH.
Qed.

Lemma search_urls_distinct (kb : JsMap.t Doc.t) (q : string) (n : Z) :
  JsMap.wf kb ->
  Forall (fun entry => Doc.url (snd entry) = fst entry) kb ->
  NoDup (map Hit.url (searchKnowledgeBase kb q n)).
Proof.
  intros Hwf Hurl. destruct (search_is_prefix_of_matches kb q n) as [k ->].
  rewrite map_map. simpl.
  change (fun x : Doc.t => Doc.url x) with Doc.url.
  apply NoDup_map_firstn, NoDup_map_filter.
  rewrite urls_are_keys by exact Hurl. exact Hwf.
Qed.

(** X9: for every limit, positive or not, each hit returned by the
    search is built from a stored document that matches the query: it
    carries that document's title and URL, and its excerpt is the first
    200 characters of the content followed by three dots, hence at most
    203 characters long. *)
Theorem hit_comes_from_matching_document
  (kb : JsMap.t Doc.t) (q : string) (n : Z) (h : Hit.t) :
  In h (searchKnowledgeBase kb q n) ->
  exists u doc,
    In (u, doc) kb
    /\ matches (Js.toLowerCase q) doc = true
    /\ Hit.title h = Doc.title doc
    /\ Hit.url h = Doc.url doc
    /\ Hit.excerpt h =
       String.append (Js.substring0 200 (Doc.content doc)) "..."
    /\ String.length (Hit.excerpt h) <= 203.
Proof.
  intros Hin. destruct (search_is_prefix_of_matches kb q n) as [k Hk].
  rewrite Hk in Hin. apply in_map_iff in Hin as [doc [<- Hin]].
  apply In_firstn_In in Hin. apply filter_In in Hin as [Hin Hm].
  apply in_map_iff in Hin as [[u d] [Hd Hin]]. simpl in Hd. subst d.
  exists u, doc. repeat split; try assumption.
  unfold toHit. cbn [Hit.excerpt]. rewrite string_length_append.
  pose proof (substring0_length 200 (Doc.content doc)) as Hlen.
  change (String.length "...") with 3. lia.
Qed.

Lemma hit_comes_from_matching_document_witness :
  exists u doc,
    In (u, doc) sampleStore
    /\ matches (Js.toLowerCase "Visitor") doc = true
    /\ Hit.title (toHit guideDoc) = Doc.title doc
    /\ Hit.url (toHit guideDoc) = Doc.url doc
    /\ Hit.excerpt (toHit guideDoc) =
       String.append (Js.substring0 200 (Doc.content doc)) "..."
    /\ String.length (Hit.excerpt (toHit guideDoc)) <= 203.
Proof.
  apply (hit_comes_from_matching_document sampleStore "Visitor" 5).
  vm_compute. now left.
Defined.

(** X10: over the Map reached by any number of passes from the empty
    Map, no search, whatever the query and the limit, returns the same
    URL twice. *)
Theorem search_never_repeats_url (webs : list Web) (q : string) (n : Z) :
  NoDup (map Hit.url (searchKnowledgeBase (crawlPasses webs JsMap.empty) q n)).
Proof.
  destruct (crawlPasses_provenance webs JsMap.empty) as [Hwf Hprov].
  apply search_urls_distinct; [apply Hwf; constructor|].
  apply Forall_forall. intros [u doc] Hin. simpl.
  destruct (Hprov u doc Hin) as [[]|[page [fallback ->]]]. reflexivity.
Qed.

(** X11: raising the limit only adds hits at the end: for limits
    1 <= n <= m, the result for [n] is the first [n] hits of the result
    for [m]. *)
Theorem search_limit_prefix (kb : JsMap.t Doc.t) (q : string) (n m : Z) :
  (1 <= n)%Z -> (n <= m)%Z ->
  searchKnowledgeBase kb q n =
  firstn (Z.to_nat n) (searchKnowledgeBase kb q m).
Proof.
  intros Hn Hm. rewrite !search_refines_spec by lia. unfold searchSpec.
  rewrite firstn_map, firstn_firstn. f_equal. f_equal. lia.
Qed.

Lemma search_limit_prefix_witness :
  searchKnowledgeBase sampleStore "o" 1 =
  firstn (Z.to_nat 1) (searchKnowledgeBase sampleStore "o" 5).
Proof. apply search_limit_prefix; lia. Defined.

(** X12: with a limit of at least 1 that is not below the size of the
    Map, the search returns every matching document, in insertion
    order. *)
Theorem search_returns_all_when_limit_covers_store
  (kb : JsMap.t Doc.t) (q : string) (n : Z) :
  (1 <= n)%Z ->
  (Z.of_nat (JsMap.size kb) <= n)%Z ->
  searchKnowledgeBase kb q n =
  map toHit (filter (matches (Js.toLowerCase q)) (map snd kb)).
Proof.
  intros Hn Hsize. rewrite search_refines_spec by exact Hn.
  unfold searchSpec. rewrite firstn_all2; [reflexivity|].
  pose proof (filter_length_le (matches (Js.toLowerCase q)) (map snd kb)) as H.
  rewrite length_map in H. unfold JsMap.size in Hsize. lia.
Qed.

Lemma search_returns_all_when_limit_covers_store_witness :
  searchKnowledgeBase sampleStore "o" 5 = [toHit condecoDoc; toHit guideDoc].
Proof.
  rewrite search_returns_all_when_limit_covers_store;
    [reflexivity | lia | simpl; lia].
Defined.

End SearchExtras.

(** * Properties of the request handlers *)

Section HandlerExtras.

Lemma find_first {A} (f : A -> bool) (l : list A) (x : A) :
  find f l = Some x ->
  exists before after,
    l = (before ++ x :: after)%list
    /\ f x = true
    /\ forall y, In y before -> f y = false.
Proof.
  induction l as [|a l IH]; simpl; [discriminate|].
  destruct (f a) eqn:Ha.
  - intros H. inversion H; subst. exists [], l. repeat split; auto.
    intros y [].
  - intros H. destruct (IH H) as [before [after [-> [Hx Hb]]]].
    exists (a :: before), after. repeat split; auto.
    intros y [<-|Hy]; auto.
Qed.

(** X13: [/api/search] answers 400 exactly for a falsy query, the empty
    string included, so the search never runs on the empty query through
    this route; for a non-empty string it answers 200 with the first
    matching documents in insertion order, at most 5; only a truthy
    query that is not a string makes the handler throw. *)
Theorem apiSearch_outcomes (kb : JsMap.t Doc.t) (query : JsValue) :
  match apiSearch kb query with
  | Responded status body =>
      (status = 400 /\ truthy query = false
       /\ body = SearchError "Query is required")
      \/ (status = 200
          /\ exists q,
               query = JString q /\ q <> EmptyString
               /\ body = SearchResults (searchSpec kb q 5)
               /\ List.length (searchSpec kb q 5) <= 5)
  | Threw => query = JTruthy
  end.
Proof.
  destruct query as [| | | | |q]; simpl; auto.
  unfold apiSearch. simpl. destruct (q =? EmptyString) eqn:E; simpl; auto.
  right. split; [reflexivity|]. exists q. apply String.eqb_neq in E.
  repeat split; [exact E | |].
  - now rewrite search_refines_spec by lia.
  - unfold searchSpec. rewrite length_map, length_firstn. lia.
Qed.

(** X14: the messages sent to the completion service are the system
    message, then the last ten turns of the conversation in their order
    (all of them when there are fewer), then the user's message: never
    more than twelve messages. *)
Theorem chat_messages_shape
  (message : string) (conversation : list Msg.t) (relevantDocs : list Hit.t) :
  exists older recent,
    conversation = (older ++ recent)%list
    /\ List.length recent = Nat.min 10 (List.length conversation)
    /\ chatMessages message conversation relevantDocs =
       (systemMessage (chatContext relevantDocs)
          :: recent ++ [Msg.mk "user" message])%list
    /\ List.length (chatMessages message conversation relevantDocs) <= 12.
Proof.
  exists (firstn (List.length conversation - 10) conversation),
         (sliceLast 10 conversation).
  unfold chatMessages, sliceLast. repeat split.
  - now rewrite firstn_skipn.
  - rewrite length_skipn. lia.
  - simpl. rewrite length_app, length_skipn. simpl. lia.
Qed.

(** X15: [/api/chat] answers 400 exactly for a falsy message; it
    answers 500 "Internal server error" for a truthy message that is not
    a string and for a string message whose conversation is neither
    absent, an array nor a string, in all these cases whatever the
    completion service would say.  Otherwise it searches with limit 3,
    sends the system message, the last ten elements of the conversation
    and the user's message, at most twelve items, and answers 500 when
    the service fails and 200 with the service's text and one source per
    hit, at most three, when it succeeds. *)
Theorem apiChat_outcomes
  (kb : JsMap.t Doc.t) (complete : list RequestItem -> option string)
  (message : JsValue) (conversation : Conversation) :
  (truthy message = false
   /\ apiChat kb complete message conversation =
      (400, ChatError "Message is required."))
  \/ ((message = JTruthy
       \/ exists m, message = JString m /\ m <> EmptyString
                    /\ conversation = ConvOther)
      /\ apiChat kb complete message conversation =
         (500, ChatError "Internal server error"))
  \/ exists m messages,
       message = JString m /\ m <> EmptyString
       /\ conversation <> ConvOther
       /\ sentMessages m conversation (searchSpec kb m 3) = Some messages
       /\ (forall turns,
             conversation = ConvArray turns ->
             messages =
             map ItemMessage (chatMessages m turns (searchSpec kb m 3)))
       /\ (conversation = ConvAbsent ->
           messages = map ItemMessage (chatMessages m [] (searchSpec kb m 3)))
       /\ List.length messages <= 12
       /\ List.length (searchSpec kb m 3) <= 3
       /\ match complete messages with
          | None =>
              apiChat kb complete message conversation =
              (500, ChatError "Failed to process request with OpenAI")
          | Some response =>
              apiChat kb complete message conversation =
              (200,
               ChatReply response
                 (map (fun h => Source.mk (Hit.title h) (Hit.url h))
                    (searchSpec kb m 3)))
          end.
Proof.
  destruct message as [| | | | |m]; simpl; auto.
  unfold apiChat. simpl. destruct (m =? EmptyString) eqn:E; simpl; auto.
  apply String.eqb_neq in E. rewrite search_refines_spec by lia.
  destruct (sentMessages m conversation (searchSpec kb m 3))
    as [messages|] eqn:Hsent.
  - right. right. exists m, messages.
    split; [reflexivity|]. split; [exact E|].
    split; [intros ->; discriminate Hsent|]. split; [exact Hsent|].
    split; [intros turns ->; simpl in Hsent; congruence|].
    split; [intros ->; simpl in Hsent; congruence|].
    split; [|split].
    + destruct conversation as [|turns|c|]; unfold sentMessages in Hsent;
        try discriminate Hsent; injection Hsent as <-;
        unfold chatMessages, sliceLast; cbn [map List.length];
        rewrite ?length_map, ?length_app, ?length_map, ?length_skipn;
        cbn [List.length]; lia.
    + unfold searchSpec. rewrite length_map, length_firstn. lia.
    + now destruct (complete messages).
  - right. left. split; [|reflexivity]. right. exists m.
    split; [reflexivity|]. split; [exact E|].
    destruct conversation; simpl in Hsent; congruence.
Qed.

(** X16: [/api/ask] picks the image of the first key of [imageMap], in
    the order workflow, dashboard, sensor, asset, that occurs in the
    lower-cased prompt, and no image when the prompt is empty or holds
    none of the keys; the text repeats the prompt. *)
Theorem apiAsk_picks_first_key (p : string) :
  exists body,
    apiAsk (JString p) = Responded 200 body
    /\ askText body = String.append "Here's the architecture diagram for: " p
    /\ ((image body = None /\ imageAlt body = "No image"
         /\ (p = EmptyString
             \/ forall key file,
                  In (key, file) imageMap ->
                  Js.includes (Js.toLowerCase p) key = false))
        \/ exists before key file after,
             imageMap = (before ++ (key, file) :: after)%list
             /\ Js.includes (Js.toLowerCase p) key = true
             /\ (forall k f, In (k, f) before ->
                   Js.includes (Js.toLowerCase p) k = false)
             /\ image body = Some (String.append "/images/" file)
             /\ imageAlt body = String.append "Image for " key).
Proof.
  eexists. split; [reflexivity|]. split; [reflexivity|]. simpl.
  destruct (p =? EmptyString) eqn:E.
  - left. apply String.eqb_eq in E. subst p. simpl. auto.
  - simpl.
    destruct (Js.includes (Js.toLowerCase p) "workflow") eqn:H1.
    { right. exists [], "workflow", "workflow-module.jpg", (tl imageMap).
      repeat split; auto. intros k f []. }
    destruct (Js.includes (Js.toLowerCase p) "dashboard") eqn:H2.
    { right. exists (firstn 1 imageMap), "dashboard", "dashboard.png",
                    (skipn 2 imageMap).
      repeat split; auto.
      intros k f [H|[]]; inversion H; subst; exact H1. }
    destruct (Js.includes (Js.toLowerCase p) "sensor") eqn:H3.
    { right. exists (firstn 2 imageMap), "sensor", "sensor-mapping.png",
                    (skipn 3 imageMap).
      repeat split; auto.
      intros k f [H|[H|[]]]; inversion H; subst; assumption. }
    destruct (Js.includes (Js.toLowerCase p) "asset") eqn:H4.
    { right. exists (firstn 3 imageMap), "asset", "sample-asset.png", [].
      repeat split; auto.
      intros k f [H|[H|[H|[]]]]; inversion H; subst; assumption. }
    left. repeat split; auto. right.
    intros key file [H|[H|[H|[H|[]]]]]; inversion H; subst; assumption.
Qed.



End HandlerExtras.
